(** * Channels of the update-management catalog (pkg/api/channels.go)

    A shallow embedding of the channel operations of the API type:
    [AddChannel], [UpdateChannel], [DeleteChannel], [GetChannel],
    [getSpecificChannels], [GetChannels], [validatePackage] and
    [channelsQuery], over an explicit model of the relational store they
    talk to.

    The store is a record of tables (lists of rows).  Every call the Go
    code makes on [api.dbR] is one atomic statement; its outcome depends
    on an [Oracle] that says, per call site, whether the store reports an
    error and what concurrent writers did to the tables just before the
    statement ran.  Each operation returns its Go result together with
    the final tables and the list of store calls it made. *)

From Stdlib Require Import ZArith NArith String.
From stdpp Require Import base decidable option list strings sorting.

(** ** Errors and results *)

(** The error values the channel code returns or lets through.
    [ErrInvalidPackage] and [ErrBlacklistedChannel] are declared in
    channels.go; [ErrInvalidArch], [ErrArchMismatch] and
    [ErrNoRowsAffected] are package-level values declared elsewhere in
    package api; [ErrNotFound] is what the query library returns from
    QueryStruct when the statement yields no row; [ErrStore] stands for
    any other failure the store reports (connection, constraint, ...). *)
Inductive error : Type :=
  | ErrInvalidPackage
  | ErrBlacklistedChannel
  | ErrInvalidArch
  | ErrArchMismatch
  | ErrNoRowsAffected
  | ErrNotFound
  | ErrStore (msg : string).

#[global] Instance error_eq_dec : EqDecision error.
Proof. solve_decision. Defined.

(** A Go pair [(v, err)] in which exactly one side is set. *)
Inductive result (A : Type) : Type :=
  | Ok (a : A)
  | Err (e : error).
Arguments Ok {A} a.
Arguments Err {A} e.

(** dat.NullString: the string and the flag that says it is not NULL. *)
Record NullString : Type := mkNullString {
  NullString_String : string;
  NullString_Valid : bool
}.

(** The driver value of a NullString: NULL unless [Valid]. *)
Definition NullString_Value (s : NullString) : option string :=
  if NullString_Valid s then Some (NullString_String s) else None.

(** Scanning a nullable column back into a NullString. *)
Definition NullString_Scan (v : option string) : NullString :=
  match v with
  | Some s => mkNullString s true
  | None => mkNullString EmptyString false
  end.

(** time.Time, as a number of ticks. *)
Definition Time : Type := Z.

(** The store calls of channels.go, one constructor per call site kind. *)
Inductive StoreCall : Type :=
  | SelectChannel      (* GetChannel: channelsQuery ... QueryStruct *)
  | SelectChannels     (* getSpecificChannels, GetChannels: QueryStructs *)
  | SelectPackage      (* GetPackage, reached through validatePackage *)
  | InsertChannel      (* AddChannel: InsertInto("channel") *)
  | UpdateChannelRow   (* UpdateChannel: Update("channel") ... Exec *)
  | DeleteChannelRow   (* DeleteChannel: DeleteFrom("channel") ... Exec *)
  | InsertActivity.    (* newChannelActivityEntry *)

#[global] Instance StoreCall_eq_dec : EqDecision StoreCall.
Proof. solve_decision. Defined.

Section Channels.

(** The architecture type and its validity test are declared in another
    file of package api; the channel code only compares architectures
    and calls [IsValid]. *)
Context {Arch : Type} `{!EqDecision Arch}.
Variable IsValid : Arch -> bool.

(** Activity class and severity constants used by [UpdateChannel]. *)
Variable activityChannelPackageUpdated : Z.
Variable activityInfo : Z.

(** validatePaginationParams is declared in another file of package api. *)
Variable validatePaginationParams : N -> N -> N * N.

(** ** Data model *)

(** Modelled from the spec: the Package struct is declared in another
    file; these are the identifier, owning application, architecture,
    version and channels blacklist the spec lists and channels.go reads. *)
Record Package : Type := mkPackage {
  Package_ID : string;
  Package_ApplicationID : string;
  Package_Arch : Arch;
  Package_Version : string;
  Package_ChannelsBlacklist : list string
}.

(** The Channel struct of channels.go. *)
Record Channel : Type := mkChannel {
  Channel_ID : string;
  Channel_Name : string;
  Channel_Color : string;
  Channel_CreatedTs : Time;
  Channel_ApplicationID : string;
  Channel_PackageID : NullString;
  Channel_Package : option Package;
  Channel_Arch : Arch
}.

(** A row of table "channel": the columns named by the struct's db tags,
    without "package", which [channelsQuery] computes. *)
Record ChannelRow : Type := mkChannelRow {
  row_id : string;
  row_name : string;
  row_color : string;
  row_created_ts : Time;
  row_application_id : string;
  row_package_id : option string;
  row_arch : Arch
}.

(** Modelled from the spec: the activity record
    {type, severity, subject(version/app), channel, timestamp}. *)
Record Activity : Type := mkActivity {
  Activity_Class : Z;
  Activity_Severity : Z;
  Activity_Version : string;
  Activity_ApplicationID : string;
  Activity_ChannelID : string;
  Activity_CreatedTs : Time
}.

(** The tables the channel code reads and writes. *)
Record DB : Type := mkDB {
  tbl_channel : list ChannelRow;
  tbl_package : list Package;
  tbl_activity : list Activity
}.

(** What the store decides on its own at each call: an error to report
    instead of running the statement, the effect of concurrent writers
    just before the statement, and the defaults of an inserted row. *)
Record Oracle : Type := mkOracle {
  fault : StoreCall -> option error;
  interfere : StoreCall -> DB -> DB;
  gen_id : string;
  gen_ts : Time
}.

(** ** The store monad *)

Definition Store (A : Type) : Type := DB -> A * DB * list StoreCall.

Definition ret {A} (a : A) : Store A := fun d => (a, d, []).

Definition bind {A B} (m : Store A) (k : A -> Store B) : Store B :=
  fun d =>
    let '(a, d1, l1) := m d in
    let '(b, d2, l2) := k a d1 in
    (b, d2, l1 ++ l2).

Notation "x <- m ;; k" := (bind m (fun x => k))
  (at level 100, m at next level, right associativity).

(** One statement sent to the store at call site [c]. *)
Definition exec {A} (o : Oracle) (c : StoreCall) (stmt : DB -> A * DB)
  : Store (result A) :=
  fun d =>
    let d0 := interfere o c d in
    match fault o c with
    | Some e => (Err e, d0, [c])
    | None => let '(a, d1) := stmt d0 in (Ok a, d1, [c])
    end.

(** QueryStruct: the first row of the statement's answer. *)
Definition QueryStruct {A} (rows : result (list A)) : result A :=
  match rows with
  | Err e => Err e
  | Ok [] => Err ErrNotFound
  | Ok (r :: _) => Ok r
  end.

(** ** Packages *)

(** Modelled from the spec: packagesQuery is declared in another file;
    it answers the package rows that satisfy the condition added to it. *)
Definition packagesQuery (P : Package -> Prop) `{!forall p, Decision (P p)}
  (d : DB) : list Package :=
  filter P (tbl_package d).

(** Modelled from the spec: GetPackage is declared in another file; it
    returns the package row with the identifier provided. *)
Definition GetPackage (o : Oracle) (pkgID : string) : Store (result Package) :=
  rows <- exec o SelectPackage
            (fun d => (packagesQuery (fun p => Package_ID p = pkgID) d, d)) ;;
  ret (QueryStruct rows).

(** The loop of validatePackage over pkg.ChannelsBlacklist. *)
Fixpoint inBlacklist (channelID : string) (blacklist : list string) : bool :=
  match blacklist with
  | [] => false
  | blacklistedChannelID :: rest =>
      if decide (channelID = blacklistedChannelID) then true
      else inBlacklist channelID rest
  end.

Definition validatePackage (o : Oracle) (packageID channelID appID : string)
  (channelArch : Arch) : Store (result Package) :=
  r <- GetPackage o packageID ;;
  ret (match r with
       | Ok pkg =>
           if decide (Package_ApplicationID pkg <> appID) then Err ErrInvalidPackage
           else if decide (Package_Arch pkg <> channelArch) then Err ErrArchMismatch
           else if inBlacklist channelID (Package_ChannelsBlacklist pkg)
                then Err ErrBlacklistedChannel
           else Ok pkg
       | Err e => Err e
       end).

(** ** Channel queries *)

(** ORDER BY name ASC, on the byte order of the names. *)
Definition name_le (r1 r2 : ChannelRow) : Prop :=
  String.leb (row_name r1) (row_name r2) = true.

#[global] Instance name_le_dec : RelDecision name_le.
Proof. intros r1 r2. unfold name_le. apply _. Defined.

(** The document built for one channel row: its columns, and under
    "package" the first row of packagesQuery where
    package.id = channel.package_id (no such row, or a NULL package_id,
    leaves the field nil). *)
Definition embedded_package (d : DB) (r : ChannelRow) : option Package :=
  match row_package_id r with
  | Some pid => head (packagesQuery (fun p => Package_ID p = pid) d)
  | None => None
  end.

Definition channel_doc (d : DB) (r : ChannelRow) : Channel :=
  {| Channel_ID := row_id r;
     Channel_Name := row_name r;
     Channel_Color := row_color r;
     Channel_CreatedTs := row_created_ts r;
     Channel_ApplicationID := row_application_id r;
     Channel_PackageID := NullString_Scan (row_package_id r);
     Channel_Package := embedded_package d r;
     Channel_Arch := row_arch r |}.

(** channelsQuery, extended by its callers with a WHERE condition: all
    channel rows that satisfy it, ordered by name, each with its
    package. *)
Definition channelsQuery (P : ChannelRow -> Prop) `{!forall r, Decision (P r)}
  (d : DB) : list Channel :=
  channel_doc d <$> merge_sort name_le (filter P (tbl_channel d)).

(** Go's uint64 arithmetic. *)
Definition uint64 (n : N) : N := (n mod 2 ^ 64)%N.

(** Paginate(page, perPage) of the query library:
    LIMIT perPage OFFSET (page - 1) * perPage, computed on uint64. *)
Definition Paginate {A} (page perPage : N) (rows : list A) : list A :=
  let offset := uint64 (uint64 (page + 2 ^ 64 - 1) * perPage) in
  take (N.to_nat perPage) (drop (N.to_nat offset) rows).

Definition GetChannel (o : Oracle) (channelID : string)
  : Store (result Channel) :=
  rows <- exec o SelectChannel
            (fun d => (channelsQuery (fun r => row_id r = channelID) d, d)) ;;
  ret (QueryStruct rows).

Definition getSpecificChannels (o : Oracle) (channelID : list string)
  : Store (result (list Channel)) :=
  exec o SelectChannels
    (fun d => (channelsQuery (fun r => row_id r ∈ channelID) d, d)).

Definition GetChannels (o : Oracle) (appID : string) (page perPage : N)
  : Store (result (list Channel)) :=
  let '(page, perPage) := validatePaginationParams page perPage in
  exec o SelectChannels
    (fun d =>
       (Paginate page perPage
          (channelsQuery (fun r => row_application_id r = appID) d), d)).

(** ** Statements that write *)

Definition set_tbl_channel (rows : list ChannelRow) (d : DB) : DB :=
  {| tbl_channel := rows;
     tbl_package := tbl_package d;
     tbl_activity := tbl_activity d |}.

Definition set_tbl_activity (rows : list Activity) (d : DB) : DB :=
  {| tbl_channel := tbl_channel d;
     tbl_package := tbl_package d;
     tbl_activity := rows |}.

(** INSERT INTO channel (name, color, application_id, package_id, arch)
    ... RETURNING *: id and created_ts are the store's defaults. *)
Definition inserted_row (o : Oracle) (channel : Channel) : ChannelRow :=
  {| row_id := gen_id o;
     row_name := Channel_Name channel;
     row_color := Channel_Color channel;
     row_created_ts := gen_ts o;
     row_application_id := Channel_ApplicationID channel;
     row_package_id := NullString_Value (Channel_PackageID channel);
     row_arch := Channel_Arch channel |}.

Definition insert_channel (o : Oracle) (channel : Channel) (d : DB)
  : list ChannelRow * DB :=
  let row := inserted_row o channel in
  ([row], set_tbl_channel (tbl_channel d ++ [row]) d).

(** QueryStruct(channel) on the returned row: the columns overwrite the
    struct's fields; Package has no column and keeps its value. *)
Definition scan_row (row : ChannelRow) (channel : Channel) : Channel :=
  {| Channel_ID := row_id row;
     Channel_Name := row_name row;
     Channel_Color := row_color row;
     Channel_CreatedTs := row_created_ts row;
     Channel_ApplicationID := row_application_id row;
     Channel_PackageID := NullString_Scan (row_package_id row);
     Channel_Package := Channel_Package channel;
     Channel_Arch := row_arch row |}.

(** UPDATE channel SET name, color, package_id WHERE id = $1. *)
Definition updated_row (channel : Channel) (r : ChannelRow) : ChannelRow :=
  if decide (row_id r = Channel_ID channel) then
    {| row_id := row_id r;
       row_name := Channel_Name channel;
       row_color := Channel_Color channel;
       row_created_ts := row_created_ts r;
       row_application_id := row_application_id r;
       row_package_id := NullString_Value (Channel_PackageID channel);
       row_arch := row_arch r |}
  else r.

Definition update_channel (channel : Channel) (d : DB) : nat * DB :=
  (length (filter (fun r => row_id r = Channel_ID channel) (tbl_channel d)),
   set_tbl_channel (updated_row channel <$> tbl_channel d) d).

(** DELETE FROM channel WHERE id = $1. *)
Definition delete_channel (channelID : string) (d : DB) : nat * DB :=
  (length (filter (fun r => row_id r = channelID) (tbl_channel d)),
   set_tbl_channel (filter (fun r => row_id r <> channelID) (tbl_channel d)) d).

(** Modelled from the spec: newChannelActivityEntry is declared in
    another file; it records one activity entry for the channel. *)
Definition newChannelActivityEntry (o : Oracle) (class severity : Z)
  (version appID channelID : string) : Store (option error) :=
  r <- exec o InsertActivity
         (fun d =>
            (tt, set_tbl_activity
                   (tbl_activity d ++
                    [mkActivity class severity version appID channelID (gen_ts o)])
                   d)) ;;
  ret (match r with Ok _ => None | Err e => Some e end).

(** ** The channel operations *)

Definition AddChannel (o : Oracle) (channel : Channel)
  : Store (option Channel * option error) :=
  if negb (IsValid (Channel_Arch channel)) then ret (None, Some ErrInvalidArch)
  else
    v <- (if decide (NullString_String (Channel_PackageID channel) <> EmptyString)
          then
            r <- validatePackage o (NullString_String (Channel_PackageID channel))
                   (Channel_ID channel) (Channel_ApplicationID channel)
                   (Channel_Arch channel) ;;
            ret (match r with Ok _ => None | Err e => Some e end)
          else ret None) ;;
    match v with
    | Some e => ret (None, Some e)
    | None =>
        r <- exec o InsertChannel (insert_channel o channel) ;;
        ret (match QueryStruct r with
             | Ok row => (Some (scan_row row channel), None)
             | Err e => (Some channel, Some e)
             end)
    end.

Definition UpdateChannel (o : Oracle) (channel : Channel)
  : Store (option error) :=
  before <- GetChannel o (Channel_ID channel) ;;
  match before with
  | Err e => ret (Some e)
  | Ok channelBeforeUpdate =>
      v <- (if decide (NullString_String (Channel_PackageID channel) <> EmptyString)
            then
              r <- validatePackage o
                     (NullString_String (Channel_PackageID channel))
                     (Channel_ID channel)
                     (Channel_ApplicationID channelBeforeUpdate)
                     (Channel_Arch channelBeforeUpdate) ;;
              ret (match r with Ok p => Ok (Some p) | Err e => Err e end)
            else ret (Ok None)) ;;
      match v with
      | Err e => ret (Some e)
      | Ok pkg =>
          result <- exec o UpdateChannelRow (update_channel channel) ;;
          match result with
          | Err e => ret (Some e)
          | Ok RowsAffected =>
              if decide (RowsAffected = 0) then ret (Some ErrNoRowsAffected)
              else
                match pkg with
                | Some pkg =>
                    if decide (NullString_String (Channel_PackageID channelBeforeUpdate)
                               <> NullString_String (Channel_PackageID channel))
                    then
                      _ <- newChannelActivityEntry o
                             activityChannelPackageUpdated activityInfo
                             (Package_Version pkg) (Package_ApplicationID pkg)
                             (Channel_ID channel) ;;
                      ret None
                    else ret None
                | None => ret None
                end
          end
      end
  end.

Definition DeleteChannel (o : Oracle) (channelID : string)
  : Store (option error) :=
  result <- exec o DeleteChannelRow (delete_channel channelID) ;;
  ret (match result with
       | Ok RowsAffected =>
           if decide (RowsAffected = 0) then Some ErrNoRowsAffected else None
       | Err e => Some e
       end).

(** ** Vocabulary of the properties *)

(** The store runs the call alone: no concurrent writer steps in. *)
Definition sequential (o : Oracle) : Prop :=
  forall c d, interfere o c d = d.

(** The three components of what an operation returns. *)
Definition outcome {A} (x : A * DB * list StoreCall) : A := x.1.1.
Definition tables {A} (x : A * DB * list StoreCall) : DB := x.1.2.
Definition calls {A} (x : A * DB * list StoreCall) : list StoreCall := x.2.

(** The package row a package reference resolves to. *)
Definition package_row (d : DB) (pid : string) : option Package :=
  head (packagesQuery (fun p => Package_ID p = pid) d).

(** The row [GetChannel] picks: the first, by name, with the identifier. *)
Definition read_row (d : DB) (channelID : string) : option ChannelRow :=
  head (merge_sort name_le (filter (fun r => row_id r = channelID) (tbl_channel d))).

(** A stored channel with a non-empty package reference points to a
    package of its own application and architecture that does not
    blacklist it. *)
Definition placement_ok (d : DB) (r : ChannelRow) : Prop :=
  forall pid, row_package_id r = Some pid -> pid <> EmptyString ->
    exists pkg, package_row d pid = Some pkg /\
      Package_ApplicationID pkg = row_application_id r /\
      Package_Arch pkg = row_arch r /\
      row_id r ∉ Package_ChannelsBlacklist pkg.

(** The catalog invariant on channels: identifiers are unique (primary
    key) and every channel is well placed. *)
Definition channels_inv (d : DB) : Prop :=
  NoDup (row_id <$> tbl_channel d) /\
  Forall (placement_ok d) (tbl_channel d).

(** The identifier the store gives an inserted channel is new: no
    channel has it and no blacklist mentions it. *)
Definition fresh_id (o : Oracle) (d : DB) : Prop :=
  (gen_id o ∉ row_id <$> tbl_channel d) /\
  (forall pkg, pkg ∈ tbl_package d -> gen_id o ∉ Package_ChannelsBlacklist pkg).

(** The operations on channels, as requests. *)
Inductive ChannelOp : Type :=
  | OpAddChannel (channel : Channel)
  | OpUpdateChannel (channel : Channel)
  | OpDeleteChannel (channelID : string)
  | OpGetChannel (channelID : string)
  | OpGetSpecificChannels (channelID : list string)
  | OpGetChannels (appID : string) (page perPage : N).

(** The tables after one request. *)
Definition run_op (o : Oracle) (op : ChannelOp) (d : DB) : DB :=
  match op with
  | OpAddChannel channel => tables (AddChannel o channel d)
  | OpUpdateChannel channel => tables (UpdateChannel o channel d)
  | OpDeleteChannel channelID => tables (DeleteChannel o channelID d)
  | OpGetChannel channelID => tables (GetChannel o channelID d)
  | OpGetSpecificChannels channelID => tables (getSpecificChannels o channelID d)
  | OpGetChannels appID page perPage => tables (GetChannels o appID page perPage d)
  end.

Fixpoint run_ops (steps : list (Oracle * ChannelOp)) (d : DB) : DB :=
  match steps with
  | [] => d
  | (o, op) :: rest => run_ops rest (run_op o op d)
  end.

(** A request is served alone, and an insert gets a new identifier. *)
Definition served_alone_1 (o : Oracle) (op : ChannelOp) (d : DB) : Prop :=
  sequential o /\
  match op with
  | OpAddChannel _ => fresh_id o d
  | _ => True
  end.

(** Every request of the run is served so, one after the other. *)
Fixpoint served_alone (steps : list (Oracle * ChannelOp)) (d : DB) : Prop :=
  match steps with
  | [] => True
  | (o, op) :: rest =>
      served_alone_1 o op d /\ served_alone rest (run_op o op d)
  end.


(** The columns [UpdateChannel] must not touch. *)
Definition fixed_columns (r : ChannelRow) : string * string * Arch * Time :=
  (row_id r, row_application_id r, row_arch r, row_created_ts r).

(** The caller's struct with other application and architecture values. *)
Definition with_owner (appID : string) (arch : Arch) (channel : Channel)
  : Channel :=
  {| Channel_ID := Channel_ID channel;
     Channel_Name := Channel_Name channel;
     Channel_Color := Channel_Color channel;
     Channel_CreatedTs := Channel_CreatedTs channel;
     Channel_ApplicationID := appID;
     Channel_PackageID := Channel_PackageID channel;
     Channel_Package := Channel_Package channel;
     Channel_Arch := arch |}.

(** Ascending order of the channels of an answer, by name. *)
Definition Channel_name_le (c1 c2 : Channel) : Prop :=
  String.leb (Channel_Name c1) (Channel_Name c2) = true.

End Channels.

(** ** A small catalog

    Architectures are numbered, the valid ones being 0 to 3; page
    parameters below 1 are replaced by page 1 and 10 rows per page. *)

Definition ex_IsValid (a : N) : bool := (a <=? 3)%N.

Definition ex_validatePaginationParams (page perPage : N) : N * N :=
  ((if (page <? 1)%N then 1 else page)%N,
   (if (perPage <? 1)%N then 10 else perPage)%N).

Definition ex_activityChannelPackageUpdated : Z := 5.
Definition ex_activityInfo : Z := 4.

Definition ex_quiet : Oracle (Arch := N) :=
  mkOracle (fun _ => None) (fun _ d => d) "c9" 100%Z.



Definition ex_p1 : Package := mkPackage "p1" "app" 1%N "1.0" ["c2"].
Definition ex_p2 : Package := mkPackage "p2" "app" 1%N "2.0" [].
Definition ex_p3 : Package := mkPackage "p3" "other" 1%N "3.0" ["c1"].
Definition ex_p4 : Package := mkPackage "p4" "app" 2%N "4.0" [].

Definition ex_r1 : ChannelRow :=
  mkChannelRow "c1" "stable" "red" 1%Z "app" (Some "p1") 1%N.
Definition ex_r2 : ChannelRow :=
  mkChannelRow "c2" "beta" "blue" 2%Z "app" None 1%N.

Definition ex_db : DB := mkDB [ex_r1; ex_r2] [ex_p1; ex_p2; ex_p3; ex_p4] [].

(** A caller's struct: identifier, name and package reference; the other
    fields carry values that differ from every stored row. *)
Definition ex_channel (id name : string) (pid : NullString) : Channel :=
  mkChannel id name "grey" 0%Z "elsewhere" pid None 7%N.

Definition ex_new_channel (name : string) (pid : NullString) (arch : N)
  : Channel :=
  mkChannel "" name "grey" 0%Z "app" pid None arch.

Definition ex_UpdateChannel
  : Oracle (Arch := N) -> Channel (Arch := N) -> Store (Arch := N) (option error) :=
  UpdateChannel ex_activityChannelPackageUpdated ex_activityInfo.

(** The store refuses the UPDATE. *)
Definition ex_down : Oracle (Arch := N) :=
  mkOracle
    (fun c => match c with
              | UpdateChannelRow => Some (ErrStore "down")
              | _ => None
              end)
    (fun _ d => d) "c9" 100%Z.

(** The store refuses activity entries. *)
Definition ex_mute : Oracle (Arch := N) :=
  mkOracle
    (fun c => match c with
              | InsertActivity => Some (ErrStore "down")
              | _ => None
              end)
    (fun _ d => d) "c9" 100%Z.

(** The struct [AddChannel] returns for [ex_new_channel "alpha"] with
    package p2. *)
Definition ex_added : Channel :=
  mkChannel "c9" "alpha" "grey" 100%Z "app" (mkNullString "p2" true) None 1%N.

(** Package p2 once channel c2 is on its blacklist, and a concurrent
    writer that puts it there just before the UPDATE. *)
Definition ex_p2_blacklisting : Package := mkPackage "p2" "app" 1%N "2.0" ["c2"].

Definition ex_racy_blacklist : Oracle (Arch := N) :=
  mkOracle (fun _ => None)
    (fun c d =>
       match c with
       | UpdateChannelRow =>
           mkDB (tbl_channel d)
             ((fun p => if decide (Package_ID p = "p2")
                        then ex_p2_blacklisting else p) <$> tbl_package d)
             (tbl_activity d)
       | _ => d
       end)
    "c9" 100%Z.

(** A catalog with a package whose blacklist holds the identifier the
    store hands out next. *)
Definition ex_p5 : Package := mkPackage "p5" "app" 1%N "5.0" ["c9"].

Definition ex_db_reserved : DB :=
  mkDB [ex_r1; ex_r2] [ex_p1; ex_p2; ex_p3; ex_p4; ex_p5] [].

(** A run of three requests on the small catalog. *)
Definition ex_steps : list (Oracle * ChannelOp) :=
  [(ex_quiet, OpAddChannel (ex_new_channel "alpha" (mkNullString "p2" true) 1%N));
   (ex_quiet, OpUpdateChannel (ex_channel "c2" "beta" (mkNullString "p2" true)));
   (ex_quiet, OpDeleteChannel "c1")].

(** * Properties *)

Section Properties.

#[local] Set Default Proof Using "Type".

Context {Arch : Type} `{!EqDecision Arch}.
Variable IsValid : Arch -> bool.
Variable activityChannelPackageUpdated : Z.
Variable activityInfo : Z.
Variable validatePaginationParams : N -> N -> N * N.

Implicit Types (o : Oracle (Arch := Arch)) (d : DB (Arch := Arch)).
Implicit Types (channel : Channel (Arch := Arch)) (pkg : Package (Arch := Arch)).
Implicit Types (r : ChannelRow (Arch := Arch)).

(** ** The blacklist loop and the package lookup *)

Lemma inBlacklist_elem_of (channelID : string) (blacklist : list string) :
  inBlacklist channelID blacklist = true <-> channelID ∈ blacklist.
Proof.
  induction blacklist as [|b rest IH]; simpl.
  - split; [discriminate | intros H; inversion H].
  - destruct (decide (channelID = b)) as [->|Hne].
    + split; [intros _; left | reflexivity].
    + rewrite IH. split; [intros H; by right |].
      intros H. inversion H; subst; [congruence | assumption].
Qed.

Lemma inBlacklist_not_elem_of (channelID : string) (blacklist : list string) :
  inBlacklist channelID blacklist = false <-> channelID ∉ blacklist.
Proof.
  rewrite <- inBlacklist_elem_of.
  destruct (inBlacklist channelID blacklist); split; congruence.
Qed.

(** [GetPackage] answers from the tables the statement sees and writes
    nothing. *)
Lemma GetPackage_eq o (pkgID : string) d :
  GetPackage o pkgID d =
  (match fault o SelectPackage with
   | Some e => Err e
   | None =>
       match package_row (interfere o SelectPackage d) pkgID with
       | Some pkg => Ok pkg
       | None => Err ErrNotFound
       end
   end, interfere o SelectPackage d, [SelectPackage]).
Proof.
  unfold GetPackage, bind, exec, ret, package_row.
  destruct (fault o SelectPackage); simpl; [reflexivity |].
  by destruct (packagesQuery _ _).
Qed.

Lemma validatePackage_eq o (packageID channelID appID : string)
  (channelArch : Arch) d :
  validatePackage o packageID channelID appID channelArch d =
  (match outcome (GetPackage o packageID d) with
   | Ok pkg =>
       if decide (Package_ApplicationID pkg <> appID) then Err ErrInvalidPackage
       else if decide (Package_Arch pkg <> channelArch) then Err ErrArchMismatch
       else if inBlacklist channelID (Package_ChannelsBlacklist pkg)
            then Err ErrBlacklistedChannel
       else Ok pkg
   | Err e => Err e
   end, interfere o SelectPackage d, [SelectPackage]).
Proof.
  unfold validatePackage, bind, ret, outcome.
  rewrite GetPackage_eq. reflexivity.
Qed.

(** C1. Given the package the lookup returns, [validatePackage] fails
    with [ErrInvalidPackage] when the package's application differs from
    the one given; with [ErrArchMismatch] when the applications agree and
    the architectures differ; with [ErrBlacklistedChannel] when both
    agree and the channel identifier is in the package's blacklist; and
    returns the package, with no error, in the remaining case. *)
Theorem validatePackage_outcomes o (packageID channelID appID : string)
  (channelArch : Arch) d pkg :
  outcome (GetPackage o packageID d) = Ok pkg ->
  let v := outcome (validatePackage o packageID channelID appID channelArch d) in
  (Package_ApplicationID pkg <> appID -> v = Err ErrInvalidPackage) /\
  (Package_ApplicationID pkg = appID -> Package_Arch pkg <> channelArch ->
   v = Err ErrArchMismatch) /\
  (Package_ApplicationID pkg = appID -> Package_Arch pkg = channelArch ->
   channelID ∈ Package_ChannelsBlacklist pkg -> v = Err ErrBlacklistedChannel) /\
  (Package_ApplicationID pkg = appID -> Package_Arch pkg = channelArch ->
   channelID ∉ Package_ChannelsBlacklist pkg -> v = Ok pkg).
Proof.
  intros Hget v. subst v. rewrite validatePackage_eq.
  unfold outcome at 1. simpl. rewrite Hget.
  repeat split.
  - intros Happ. by rewrite decide_True.
  - intros Happ Harch. rewrite decide_False by (intros Hn; by apply Hn). by rewrite decide_True.
  - intros Happ Harch Hbl.
    rewrite decide_False by (intros Hn; by apply Hn). rewrite decide_False by (intros Hn; by apply Hn).
    apply inBlacklist_elem_of in Hbl. by rewrite Hbl.
  - intros Happ Harch Hbl.
    rewrite decide_False by (intros Hn; by apply Hn). rewrite decide_False by (intros Hn; by apply Hn).
    apply inBlacklist_not_elem_of in Hbl. by rewrite Hbl.
Qed.

(** ** Reading channels *)

Lemma head_elem_of {A} (l : list A) (x : A) : head l = Some x -> x ∈ l.
Proof. destruct l; simpl; [discriminate |]. intros [= ->]. by left. Qed.

Lemma head_filter_unique_key {A} (f : A -> string) (l : list A) (x : A) :
  NoDup (f <$> l) -> x ∈ l -> head (filter (fun y => f y = f x) l) = Some x.
Proof.
  induction l as [|y l IH]; intros Hnd Hin; [inversion Hin |].
  rewrite fmap_cons in Hnd. apply NoDup_cons in Hnd as [Hy Hnd].
  rewrite filter_cons. destruct (decide (f y = f x)) as [Heq|Hne].
  - simpl. f_equal. apply elem_of_cons in Hin as [->|Hin]; [reflexivity |].
    exfalso. apply Hy. rewrite Heq. apply list_elem_of_fmap. eauto.
  - apply IH; [assumption |].
    apply elem_of_cons in Hin as [->|Hin]; [congruence | assumption].
Qed.

Lemma merge_sort_head_elem_of {A} (R : relation A) `{!RelDecision R}
  (l : list A) (x : A) :
  head (merge_sort R l) = Some x -> x ∈ l.
Proof.
  intros H. apply head_elem_of in H. by rewrite merge_sort_Permutation in H.
Qed.

Lemma merge_sort_head_is_Some {A} (R : relation A) `{!RelDecision R}
  (l : list A) (x : A) :
  x ∈ l -> is_Some (head (merge_sort R l)).
Proof.
  intros Hin. rewrite <- (merge_sort_Permutation R l) in Hin.
  destruct (merge_sort R l); [inversion Hin | by eexists].
Qed.

Lemma read_row_Some d (channelID : string) r :
  read_row d channelID = Some r -> r ∈ tbl_channel d /\ row_id r = channelID.
Proof.
  intros H. apply merge_sort_head_elem_of in H.
  by apply list_elem_of_filter in H as [? ?].
Qed.

Lemma read_row_is_Some d (channelID : string) r :
  r ∈ tbl_channel d -> row_id r = channelID -> is_Some (read_row d channelID).
Proof.
  intros Hin Hid. apply (merge_sort_head_is_Some _ _ r).
  by apply list_elem_of_filter.
Qed.

Lemma read_row_None d (channelID : string) :
  (forall r, r ∈ tbl_channel d -> row_id r <> channelID) ->
  read_row d channelID = None.
Proof.
  intros Hno. destruct (read_row d channelID) as [r|] eqn:E; [| reflexivity].
  apply read_row_Some in E as [Hin Hid]. by destruct (Hno r Hin).
Qed.

Lemma GetChannel_eq o (channelID : string) d :
  GetChannel o channelID d =
  (match fault o SelectChannel with
   | Some e => Err e
   | None =>
       match read_row (interfere o SelectChannel d) channelID with
       | Some r => Ok (channel_doc (interfere o SelectChannel d) r)
       | None => Err ErrNotFound
       end
   end, interfere o SelectChannel d, [SelectChannel]).
Proof.
  unfold GetChannel, bind, exec, ret, read_row, channelsQuery.
  destruct (fault o SelectChannel); simpl; [reflexivity |].
  by destruct (merge_sort _ _).
Qed.

(** C6. When a row with the identifier exists at the time of the read
    and the store reports no error, [GetChannel] returns the document of
    such a row as the tables stand at that time: its columns, and as
    embedded Package the package row its package_id refers to (the row
    with that identifier, when package identifiers are unique), none
    when package_id is NULL.  The read leaves the tables as they are. *)
Theorem GetChannel_snapshot o (channelID : string) d :
  fault o SelectChannel = None ->
  (exists r, r ∈ tbl_channel (interfere o SelectChannel d) /\ row_id r = channelID) ->
  let d0 := interfere o SelectChannel d in
  exists r c,
    outcome (GetChannel o channelID d) = Ok c /\
    tables (GetChannel o channelID d) = d0 /\
    r ∈ tbl_channel d0 /\ row_id r = channelID /\
    (Channel_ID c, Channel_Name c, Channel_Color c, Channel_CreatedTs c,
     Channel_ApplicationID c, Channel_Arch c)
    = (row_id r, row_name r, row_color r, row_created_ts r,
       row_application_id r, row_arch r) /\
    Channel_PackageID c = NullString_Scan (row_package_id r) /\
    (row_package_id r = None -> Channel_Package c = None) /\
    (forall pid, row_package_id r = Some pid ->
       Channel_Package c = head (filter (fun p => Package_ID p = pid) (tbl_package d0))) /\
    (forall pkg, NoDup (Package_ID <$> tbl_package d0) -> pkg ∈ tbl_package d0 ->
       row_package_id r = Some (Package_ID pkg) -> Channel_Package c = Some pkg).
Proof.
  intros Hfault [r0 [Hin0 Hid0]] d0.
  destruct (read_row_is_Some d0 channelID r0 Hin0 Hid0) as [r Hr].
  exists r, (channel_doc d0 r).
  rewrite GetChannel_eq, Hfault. fold d0. rewrite Hr.
  destruct (read_row_Some _ _ _ Hr) as [Hin Hid].
  unfold outcome, tables; simpl.
  repeat split; try assumption.
  - unfold embedded_package. by intros ->.
  - unfold embedded_package. by intros pid ->.
  - intros pkg Hnd Hpkg Hpid. unfold embedded_package. rewrite Hpid.
    by apply (head_filter_unique_key Package_ID).
Qed.

(** ** The UPDATE and DELETE statements *)

Lemma updated_row_fixed_columns channel r :
  fixed_columns (updated_row channel r) = fixed_columns r.
Proof. unfold updated_row. by destruct (decide _). Qed.

Lemma updated_row_id channel r : row_id (updated_row channel r) = row_id r.
Proof. unfold updated_row. by destruct (decide _). Qed.

Lemma updated_row_hit channel r :
  row_id r = Channel_ID channel ->
  row_package_id (updated_row channel r)
  = NullString_Value (Channel_PackageID channel).
Proof. intros H. unfold updated_row. by rewrite decide_True. Qed.

Lemma updated_row_miss channel r :
  row_id r <> Channel_ID channel -> updated_row channel r = r.
Proof. intros H. unfold updated_row. by rewrite decide_False. Qed.

Lemma no_row_updated channel (rows : list ChannelRow) :
  (forall r, r ∈ rows -> row_id r <> Channel_ID channel) ->
  updated_row channel <$> rows = rows.
Proof.
  induction rows as [|r rows IH]; intros Hno; [reflexivity |].
  rewrite fmap_cons, updated_row_miss, IH; [reflexivity | |].
  - intros r' Hr'. apply Hno. by right.
  - apply Hno. by left.
Qed.

Lemma rows_affected_0 (channelID : string) (rows : list ChannelRow) :
  length (filter (fun r => row_id r = channelID) rows) = 0 <->
  (forall r, r ∈ rows -> row_id r <> channelID).
Proof.
  rewrite length_zero_iff_nil. split.
  - intros Hnil r Hin Hid.
    assert (r ∈ filter (fun r => row_id r = channelID) rows) as Hf
      by by apply list_elem_of_filter.
    rewrite Hnil in Hf. inversion Hf.
  - intros Hno. induction rows as [|r rows IH]; [reflexivity |].
    rewrite filter_cons, decide_False.
    + apply IH. intros r' Hr'. apply Hno. by right.
    + apply Hno. by left.
Qed.

Lemma no_row_deleted (channelID : string) (rows : list ChannelRow) :
  (forall r, r ∈ rows -> row_id r <> channelID) ->
  filter (fun r => row_id r <> channelID) rows = rows.
Proof.
  induction rows as [|r rows IH]; intros Hno; [reflexivity |].
  rewrite filter_cons, decide_True by (apply Hno; by left).
  f_equal. apply IH. intros r' Hr'. apply Hno. by right.
Qed.

Lemma set_tbl_channel_same d : set_tbl_channel (tbl_channel d) d = d.
Proof. by destruct d. Qed.

(** Goals [c ∉ [c1; ...; cn]] on store calls. *)
Ltac not_called :=
  let H := fresh in
  intros H;
  repeat (apply elem_of_cons in H as [H|H]; [discriminate H |]);
  by apply elem_of_nil in H.

(** [UpdateChannel], call by call.  [UpdateChannel_write] is what it does
    from the UPDATE on, given the validated package (if any), the row
    read before, the tables and the calls so far. *)
Lemma UpdateChannel_eq o channel d :
  let channelID := Channel_ID channel in
  let ref := NullString_String (Channel_PackageID channel) in
  let write (validated : option Package) r dx (log : list StoreCall) :=
    let d3 := interfere o UpdateChannelRow dx in
    match fault o UpdateChannelRow with
    | Some e => (Some e, d3, log ++ [UpdateChannelRow])
    | None =>
        let d4 := set_tbl_channel (updated_row channel <$> tbl_channel d3) d3 in
        if decide (length (filter (fun r => row_id r = channelID) (tbl_channel d3)) = 0)
        then (Some ErrNoRowsAffected, d4, log ++ [UpdateChannelRow])
        else
          match validated with
          | Some pkg =>
              if decide (NullString_String (NullString_Scan (row_package_id r)) <> ref)
              then
                let d5 := interfere o InsertActivity d4 in
                (None,
                 match fault o InsertActivity with
                 | Some _ => d5
                 | None =>
                     set_tbl_activity
                       (tbl_activity d5 ++
                        [mkActivity activityChannelPackageUpdated activityInfo
                           (Package_Version pkg) (Package_ApplicationID pkg)
                           channelID (gen_ts o)]) d5
                 end,
                 log ++ [UpdateChannelRow; InsertActivity])
              else (None, d4, log ++ [UpdateChannelRow])
          | None => (None, d4, log ++ [UpdateChannelRow])
          end
    end in
  let d1 := interfere o SelectChannel d in
  UpdateChannel activityChannelPackageUpdated activityInfo o channel d =
  match fault o SelectChannel with
  | Some e => (Some e, d1, [SelectChannel])
  | None =>
      match read_row d1 channelID with
      | None => (Some ErrNotFound, d1, [SelectChannel])
      | Some r =>
          if decide (ref <> EmptyString) then
            let d2 := interfere o SelectPackage d1 in
            match fault o SelectPackage with
            | Some e => (Some e, d2, [SelectChannel; SelectPackage])
            | None =>
                match package_row d2 ref with
                | None => (Some ErrNotFound, d2, [SelectChannel; SelectPackage])
                | Some pkg =>
                    if decide (Package_ApplicationID pkg <> row_application_id r)
                    then (Some ErrInvalidPackage, d2, [SelectChannel; SelectPackage])
                    else if decide (Package_Arch pkg <> row_arch r)
                    then (Some ErrArchMismatch, d2, [SelectChannel; SelectPackage])
                    else if inBlacklist channelID (Package_ChannelsBlacklist pkg)
                    then (Some ErrBlacklistedChannel, d2, [SelectChannel; SelectPackage])
                    else write (Some pkg) r d2 [SelectChannel; SelectPackage]
                end
            end
          else write None r d1 [SelectChannel]
      end
  end.
Proof.
  intros channelID ref write d1.
  unfold UpdateChannel, bind, ret. rewrite GetChannel_eq. fold d1 channelID ref.
  destruct (fault o SelectChannel) as [e|]; [reflexivity |].
  destruct (read_row d1 channelID) as [r|]; [| reflexivity].
  cbn [channel_doc Channel_ApplicationID Channel_Arch Channel_PackageID].
  destruct (decide (ref <> EmptyString)) as [Href|Href].
  - rewrite validatePackage_eq. unfold outcome. rewrite GetPackage_eq.
    cbn [fst snd].
    destruct (fault o SelectPackage) as [e|]; [reflexivity |].
    destruct (package_row (interfere o SelectPackage d1) ref) as [pkg|];
      [| reflexivity].
    destruct (decide (Package_ApplicationID pkg <> row_application_id r));
      [reflexivity |].
    destruct (decide (Package_Arch pkg <> row_arch r)); [reflexivity |].
    destruct (inBlacklist channelID (Package_ChannelsBlacklist pkg));
      [reflexivity |].
    subst write. unfold exec, update_channel, newChannelActivityEntry, bind, ret, exec.
    cbn beta iota.
    destruct (fault o UpdateChannelRow) as [e|]; [reflexivity |].
    cbn beta iota.
    destruct (decide (length _ = 0)); [reflexivity |].
    destruct (decide (_ <> ref)); [| reflexivity].
    cbn beta iota. by destruct (fault o InsertActivity).
  - subst write. unfold exec, update_channel.
    cbn beta iota.
    destruct (fault o UpdateChannelRow) as [e|]; [reflexivity |].
    cbn beta iota.
    by destruct (decide (length _ = 0)).
Qed.

(** C9. When the new package reference is empty, [UpdateChannel] looks
    up no package (no placement validation) and records no activity; and
    when it is served alone, the store reports no error and a row with
    the identifier exists, it succeeds, writing the (empty or NULL)
    reference into every row with that identifier whatever reference was
    stored before. *)
Theorem UpdateChannel_clear_package o channel d :
  NullString_String (Channel_PackageID channel) = EmptyString ->
  let run := UpdateChannel activityChannelPackageUpdated activityInfo o channel d in
  (SelectPackage ∉ calls run) /\
  (InsertActivity ∉ calls run) /\
  (sequential o -> tbl_activity (tables run) = tbl_activity d) /\
  (sequential o ->
   fault o SelectChannel = None -> fault o UpdateChannelRow = None ->
   (exists r, r ∈ tbl_channel d /\ row_id r = Channel_ID channel) ->
   outcome run = None /\
   tbl_channel (tables run) = updated_row channel <$> tbl_channel d /\
   (forall r', r' ∈ tbl_channel (tables run) ->
      row_id r' = Channel_ID channel ->
      row_package_id r' = NullString_Value (Channel_PackageID channel))).
Proof.
  intros Hempty run. subst run.
  pose proof (UpdateChannel_eq o channel d) as E. cbv zeta in E.
  rewrite E; clear E. rewrite Hempty.
  destruct (decide (EmptyString <> EmptyString)) as [Hn|_]; [by destruct Hn |].
  split; [| split; [| split]].
  - repeat case_match; unfold calls; simpl; not_called.
  - repeat case_match; unfold calls; simpl; not_called.
  - intros Hseq. rewrite !Hseq.
    repeat case_match; unfold tables; reflexivity.
  - intros Hseq Hf1 Hf2 [r0 [Hin Hid]]. rewrite !Hseq, Hf1, Hf2.
    destruct (read_row_is_Some d _ r0 Hin Hid) as [r Hr]. rewrite Hr.
    rewrite decide_False.
    2: { intros Hz. by apply (proj1 (rows_affected_0 _ _) Hz r0). }
    unfold outcome, tables; simpl. split; [reflexivity |].
    split; [reflexivity |].
    intros r' Hr' Hid'.
    apply list_elem_of_fmap in Hr' as [r1 [-> Hr1]].
    rewrite updated_row_id in Hid'. by apply updated_row_hit.
Qed.

Lemma package_row_Some d (pid : string) pkg :
  package_row d pid = Some pkg -> pkg ∈ tbl_package d /\ Package_ID pkg = pid.
Proof.
  intros H. apply head_elem_of in H.
  by apply list_elem_of_filter in H as [? ?].
Qed.

Lemma fixed_columns_updated channel (rows : list ChannelRow) :
  fixed_columns <$> (updated_row channel <$> rows) = fixed_columns <$> rows.
Proof.
  rewrite <- list_fmap_compose. apply list_fmap_ext.
  intros i r _. apply updated_row_fixed_columns.
Qed.

(** C8. [UpdateChannel] never looks at the application and architecture
    of the struct it is given: any other values there give the same run.
    Served alone, and whatever it returns, it leaves the identifier,
    application, architecture and creation time of every stored channel
    (and the packages) as they were; and when it accepts a non-empty
    package reference, the package has the application and architecture
    of a stored row with the channel's identifier. *)
Theorem UpdateChannel_frame o channel d :
  let run := UpdateChannel activityChannelPackageUpdated activityInfo o channel d in
  (forall appID arch,
     UpdateChannel activityChannelPackageUpdated activityInfo o
       (with_owner appID arch channel) d = run) /\
  (sequential o ->
   fixed_columns <$> tbl_channel (tables run) = fixed_columns <$> tbl_channel d /\
   tbl_package (tables run) = tbl_package d) /\
  (sequential o -> outcome run = None ->
   NullString_String (Channel_PackageID channel) <> EmptyString ->
   exists r pkg,
     r ∈ tbl_channel d /\ row_id r = Channel_ID channel /\
     pkg ∈ tbl_package d /\
     Package_ID pkg = NullString_String (Channel_PackageID channel) /\
     Package_ApplicationID pkg = row_application_id r /\
     Package_Arch pkg = row_arch r).
Proof.
  intros run. subst run. split; [intros appID arch; reflexivity |].
  pose proof (UpdateChannel_eq o channel d) as E. cbv zeta in E.
  rewrite E; clear E. split.
  - intros Hseq. rewrite !Hseq.
    repeat case_match; unfold tables; simpl;
      rewrite ?Hseq; simpl; rewrite ?fixed_columns_updated; by split.
  - intros Hseq. rewrite !Hseq. unfold outcome. intros Hok Href.
    destruct (fault o SelectChannel); [discriminate |].
    destruct (read_row d (Channel_ID channel)) as [r|] eqn:Hr; [| discriminate].
    apply read_row_Some in Hr as [Hin Hid].
    rewrite decide_True in Hok by assumption.
    destruct (fault o SelectPackage); [discriminate |].
    destruct (package_row d _) as [pkg|] eqn:Hp; [| discriminate].
    apply package_row_Some in Hp as [Hpin Hpid].
    destruct (decide (Package_ApplicationID pkg <> row_application_id r))
      as [|Happ]; [discriminate |].
    destruct (decide (Package_Arch pkg <> row_arch r)) as [|Harch];
      [discriminate |].
    exists r, pkg. repeat split; try assumption.
    + by apply dec_stable.
    + by apply dec_stable.
Qed.

(** [AddChannel] and [DeleteChannel], call by call. *)
Lemma AddChannel_eq o channel d :
  let ref := NullString_String (Channel_PackageID channel) in
  let insert dx (log : list StoreCall) :=
    let d2 := interfere o InsertChannel dx in
    match fault o InsertChannel with
    | Some e => ((Some channel, Some e), d2, log ++ [InsertChannel])
    | None =>
        ((Some (scan_row (inserted_row o channel) channel), None),
         set_tbl_channel (tbl_channel d2 ++ [inserted_row o channel]) d2,
         log ++ [InsertChannel])
    end in
  AddChannel IsValid o channel d =
  if negb (IsValid (Channel_Arch channel)) then ((None, Some ErrInvalidArch), d, [])
  else if decide (ref <> EmptyString) then
    let d1 := interfere o SelectPackage d in
    match fault o SelectPackage with
    | Some e => ((None, Some e), d1, [SelectPackage])
    | None =>
        match package_row d1 ref with
        | None => ((None, Some ErrNotFound), d1, [SelectPackage])
        | Some pkg =>
            if decide (Package_ApplicationID pkg <> Channel_ApplicationID channel)
            then ((None, Some ErrInvalidPackage), d1, [SelectPackage])
            else if decide (Package_Arch pkg <> Channel_Arch channel)
            then ((None, Some ErrArchMismatch), d1, [SelectPackage])
            else if inBlacklist (Channel_ID channel) (Package_ChannelsBlacklist pkg)
            then ((None, Some ErrBlacklistedChannel), d1, [SelectPackage])
            else insert d1 [SelectPackage]
        end
    end
  else insert d [].
Proof.
  intros ref insert. unfold AddChannel. fold ref.
  destruct (negb (IsValid (Channel_Arch channel))); [reflexivity |].
  unfold bind, ret.
  destruct (decide (ref <> EmptyString)) as [Href|Href].
  - rewrite validatePackage_eq. unfold outcome. rewrite GetPackage_eq.
    cbn [fst snd].
    destruct (fault o SelectPackage) as [e|]; [reflexivity |].
    destruct (package_row (interfere o SelectPackage d) ref) as [pkg|];
      [| reflexivity].
    destruct (decide (Package_ApplicationID pkg <> Channel_ApplicationID channel));
      [reflexivity |].
    destruct (decide (Package_Arch pkg <> Channel_Arch channel)); [reflexivity |].
    destruct (inBlacklist (Channel_ID channel) (Package_ChannelsBlacklist pkg));
      [reflexivity |].
    subst insert. unfold exec, insert_channel. cbn beta iota.
    by destruct (fault o InsertChannel).
  - subst insert. unfold exec, insert_channel. cbn beta iota.
    by destruct (fault o InsertChannel).
Qed.

Lemma DeleteChannel_eq o (channelID : string) d :
  let d1 := interfere o DeleteChannelRow d in
  DeleteChannel o channelID d =
  match fault o DeleteChannelRow with
  | Some e => (Some e, d1, [DeleteChannelRow])
  | None =>
      (if decide (length (filter (fun r => row_id r = channelID) (tbl_channel d1)) = 0)
       then Some ErrNoRowsAffected else None,
       set_tbl_channel (filter (fun r => row_id r <> channelID) (tbl_channel d1)) d1,
       [DeleteChannelRow])
  end.
Proof.
  intros d1. unfold DeleteChannel, bind, ret, exec, delete_channel. fold d1.
  by destruct (fault o DeleteChannelRow).
Qed.

Lemma GetChannel_sequential o (channelID : string) d stored :
  sequential o ->
  outcome (GetChannel o channelID d) = Ok stored ->
  fault o SelectChannel = None /\
  exists r, read_row d channelID = Some r /\ stored = channel_doc d r.
Proof.
  intros Hseq. rewrite GetChannel_eq, !Hseq. unfold outcome; cbn [fst].
  destruct (fault o SelectChannel); [discriminate |].
  destruct (read_row d channelID) as [r|]; [| discriminate].
  intros [= <-]. eauto.
Qed.

(** C3, as amended. Assigning to a channel a package whose blacklist
    contains the channel's identifier is refused with a validation
    error, and the tables stay as they were.  The error is the one of
    the check that fails first: [ErrInvalidPackage] when the package's
    application differs from the channel's; [ErrArchMismatch] when the
    applications agree and the architectures differ;
    [ErrBlacklistedChannel] when both agree.  For [AddChannel] the
    channel is the struct given (of valid architecture); for
    [UpdateChannel] it is the stored channel read. *)
Theorem blacklisted_assignment_refused o channel d pkg :
  sequential o ->
  fault o SelectPackage = None ->
  NullString_String (Channel_PackageID channel) <> EmptyString ->
  package_row d (NullString_String (Channel_PackageID channel)) = Some pkg ->
  Channel_ID channel ∈ Package_ChannelsBlacklist pkg ->
  (IsValid (Channel_Arch channel) = true ->
   let run := AddChannel IsValid o channel d in
   tables run = d /\
   (Package_ApplicationID pkg <> Channel_ApplicationID channel ->
    outcome run = (None, Some ErrInvalidPackage)) /\
   (Package_ApplicationID pkg = Channel_ApplicationID channel ->
    Package_Arch pkg <> Channel_Arch channel ->
    outcome run = (None, Some ErrArchMismatch)) /\
   (Package_ApplicationID pkg = Channel_ApplicationID channel ->
    Package_Arch pkg = Channel_Arch channel ->
    outcome run = (None, Some ErrBlacklistedChannel))) /\
  (forall stored,
   outcome (GetChannel o (Channel_ID channel) d) = Ok stored ->
   let run := UpdateChannel activityChannelPackageUpdated activityInfo o channel d in
   tables run = d /\
   (Package_ApplicationID pkg <> Channel_ApplicationID stored ->
    outcome run = Some ErrInvalidPackage) /\
   (Package_ApplicationID pkg = Channel_ApplicationID stored ->
    Package_Arch pkg <> Channel_Arch stored ->
    outcome run = Some ErrArchMismatch) /\
   (Package_ApplicationID pkg = Channel_ApplicationID stored ->
    Package_Arch pkg = Channel_Arch stored ->
    outcome run = Some ErrBlacklistedChannel)).
Proof.
  intros Hseq Hfault Href Hpkg Hbl.
  apply inBlacklist_elem_of in Hbl. split.
  - intros Hvalid run. subst run.
    pose proof (AddChannel_eq o channel d) as E. cbv zeta in E.
    rewrite E; clear E. rewrite Hvalid; simpl.
    rewrite decide_True by assumption. rewrite Hfault, !Hseq, Hpkg, Hbl.
    unfold outcome, tables.
    destruct (decide (Package_ApplicationID pkg <> Channel_ApplicationID channel));
      [| destruct (decide (Package_Arch pkg <> Channel_Arch channel))];
      (split; [reflexivity |]); (split; [| split]); intros; done.
  - intros stored Hget run. subst run.
    apply GetChannel_sequential in Hget as [Hf [r [Hr ->]]]; [| assumption].
    pose proof (UpdateChannel_eq o channel d) as E. cbv zeta in E.
    rewrite E; clear E. rewrite Hf, !Hseq, Hr.
    rewrite decide_True by assumption. rewrite Hfault, Hpkg, Hbl.
    unfold outcome, tables. cbn [channel_doc Channel_ApplicationID Channel_Arch].
    destruct (decide (Package_ApplicationID pkg <> row_application_id r));
      [| destruct (decide (Package_Arch pkg <> row_arch r))];
      (split; [reflexivity |]); (split; [| split]); intros; done.
Qed.


(** ** The placement invariant *)

Lemma unique_key_eq {A} (f : A -> string) (l : list A) (x y : A) :
  NoDup (f <$> l) -> x ∈ l -> y ∈ l -> f x = f y -> x = y.
Proof.
  intros Hnd Hx Hy Hxy.
  pose proof (head_filter_unique_key f l x Hnd Hx) as H1.
  pose proof (head_filter_unique_key f l y Hnd Hy) as H2.
  rewrite <- Hxy in H2. congruence.
Qed.

Lemma placement_ok_same_packages d d' r :
  tbl_package d' = tbl_package d -> placement_ok d r -> placement_ok d' r.
Proof.
  intros Hp Hok pid Hpid Hne. destruct (Hok pid Hpid Hne) as [pkg [Hrow H]].
  exists pkg. split; [| assumption].
  unfold package_row, packagesQuery in *. by rewrite Hp.
Qed.

Lemma channels_inv_same d d' :
  tbl_channel d' = tbl_channel d -> tbl_package d' = tbl_package d ->
  channels_inv d -> channels_inv d'.
Proof.
  intros Hc Hp [Hnd Hall]. split; rewrite Hc; [assumption |].
  eapply Forall_impl; [exact Hall |].
  intros r. by apply placement_ok_same_packages.
Qed.

Lemma NullString_Value_Some (s : NullString) (pid : string) :
  NullString_Value s = Some pid -> NullString_String s = pid.
Proof. unfold NullString_Value. destruct (NullString_Valid s); congruence. Qed.

(** What a run of [UpdateChannel] leaves in the tables. *)
Lemma UpdateChannel_tables o channel d :
  sequential o ->
  let run := UpdateChannel activityChannelPackageUpdated activityInfo o channel d in
  let ref := NullString_String (Channel_PackageID channel) in
  tbl_package (tables run) = tbl_package d /\
  (tbl_channel (tables run) = tbl_channel d \/
   (tbl_channel (tables run) = updated_row channel <$> tbl_channel d /\
    (ref <> EmptyString ->
     exists r pkg,
       read_row d (Channel_ID channel) = Some r /\
       package_row d ref = Some pkg /\
       Package_ApplicationID pkg = row_application_id r /\
       Package_Arch pkg = row_arch r /\
       Channel_ID channel ∉ Package_ChannelsBlacklist pkg))).
Proof.
  intros Hseq run ref. subst run.
  pose proof (UpdateChannel_eq o channel d) as E. cbv zeta in E.
  rewrite E; clear E. fold ref. rewrite !Hseq. unfold tables.
  destruct (fault o SelectChannel); [by split; [| left] |].
  destruct (read_row d (Channel_ID channel)) as [r|]; [| by split; [| left]].
  destruct (decide (ref <> EmptyString)) as [Href|Href].
  - destruct (fault o SelectPackage); [by split; [| left] |].
    destruct (package_row d ref) as [pkg|]; [| by split; [| left]].
    destruct (decide (Package_ApplicationID pkg <> row_application_id r))
      as [|Happ]; [by split; [| left] |].
    destruct (decide (Package_Arch pkg <> row_arch r)) as [|Harch];
      [by split; [| left] |].
    destruct (inBlacklist _ _) eqn:Hbl; [by split; [| left] |].
    apply inBlacklist_not_elem_of in Hbl.
    apply dec_stable in Happ. apply dec_stable in Harch.
    assert (exists r0 pkg0, Some r = Some r0 /\ Some pkg = Some pkg0 /\
              Package_ApplicationID pkg0 = row_application_id r0 /\
              Package_Arch pkg0 = row_arch r0 /\
              Channel_ID channel ∉ Package_ChannelsBlacklist pkg0) as Hval
      by (exists r, pkg; done).
    repeat case_match; simpl; (split; [reflexivity |]);
      solve [by left | right; by split].
  - repeat case_match; simpl; (split; [reflexivity |]);
      solve [by left | right; by split].
Qed.

(** What a run of [AddChannel] leaves in the tables. *)
Lemma AddChannel_tables o channel d :
  sequential o ->
  let run := AddChannel IsValid o channel d in
  let ref := NullString_String (Channel_PackageID channel) in
  tbl_package (tables run) = tbl_package d /\
  (tbl_channel (tables run) = tbl_channel d \/
   (tbl_channel (tables run) = tbl_channel d ++ [inserted_row o channel] /\
    (ref <> EmptyString ->
     exists pkg,
       package_row d ref = Some pkg /\
       Package_ApplicationID pkg = Channel_ApplicationID channel /\
       Package_Arch pkg = Channel_Arch channel))).
Proof.
  intros Hseq run ref. subst run.
  pose proof (AddChannel_eq o channel d) as E. cbv zeta in E.
  rewrite E; clear E. fold ref. rewrite !Hseq. unfold tables.
  destruct (negb _); [by split; [| left] |].
  destruct (decide (ref <> EmptyString)) as [Href|Href].
  - destruct (fault o SelectPackage); [by split; [| left] |].
    destruct (package_row d ref) as [pkg|]; [| by split; [| left]].
    destruct (decide (Package_ApplicationID pkg <> Channel_ApplicationID channel))
      as [|Happ]; [by split; [| left] |].
    destruct (decide (Package_Arch pkg <> Channel_Arch channel)) as [|Harch];
      [by split; [| left] |].
    destruct (inBlacklist _ _); [by split; [| left] |].
    apply dec_stable in Happ. apply dec_stable in Harch.
    destruct (fault o InsertChannel); simpl; (split; [reflexivity |]);
      [by left | right; split; [reflexivity |]].
    intros _. by exists pkg.
  - destruct (fault o InsertChannel); simpl; (split; [reflexivity |]);
      [by left | right; by split].
Qed.

Lemma UpdateChannel_inv o channel d :
  sequential o -> channels_inv d ->
  channels_inv
    (tables (UpdateChannel activityChannelPackageUpdated activityInfo o channel d)).
Proof.
  intros Hseq Hinv.
  destruct (UpdateChannel_tables o channel d Hseq) as [Hp [Hc|[Hc Hval]]];
    [by apply (channels_inv_same d) |].
  destruct Hinv as [Hnd Hall]. split; rewrite Hc.
  - rewrite <- list_fmap_compose.
    erewrite list_fmap_ext; [exact Hnd |].
    intros i r _. apply updated_row_id.
  - apply Forall_fmap, Forall_forall. intros r0 Hr0. unfold compose.
    rewrite Forall_forall in Hall.
    destruct (decide (row_id r0 = Channel_ID channel)) as [Hid|Hid].
    2: { rewrite updated_row_miss by assumption.
         eapply placement_ok_same_packages; eauto. }
    intros pid Hpid Hne. rewrite updated_row_hit in Hpid by assumption.
    apply NullString_Value_Some in Hpid. rewrite <- Hpid in Hne.
    destruct (Hval Hne) as [r [pkg [Hr [Hpkg [Happ [Harch Hbl]]]]]].
    apply read_row_Some in Hr as [Hrin Hrid].
    assert (r = r0) as -> by
      (apply (unique_key_eq row_id (tbl_channel d)); congruence).
    exists pkg. rewrite <- Hpid.
    split; [unfold package_row, packagesQuery in *; by rewrite Hp |].
    unfold updated_row. rewrite decide_True by assumption. simpl.
    rewrite Hid. done.
Qed.

Lemma AddChannel_inv o channel d :
  sequential o -> fresh_id o d -> channels_inv d ->
  channels_inv (tables (AddChannel IsValid o channel d)).
Proof.
  intros Hseq [Hfresh Hfreshbl] Hinv.
  destruct (AddChannel_tables o channel d Hseq) as [Hp [Hc|[Hc Hval]]];
    [by apply (channels_inv_same d) |].
  destruct Hinv as [Hnd Hall]. split; rewrite Hc.
  - rewrite fmap_app. apply NoDup_app. split; [assumption |].
    split; [| apply NoDup_singleton].
    intros x Hx Hx'. apply list_elem_of_singleton in Hx'. subst x.
    by apply Hfresh.
  - apply Forall_app. split.
    + eapply Forall_impl; [exact Hall |].
      intros r. by apply placement_ok_same_packages.
    + apply Forall_singleton. intros pid Hpid Hne.
      cbn [inserted_row row_package_id] in Hpid.
      apply NullString_Value_Some in Hpid. rewrite <- Hpid in Hne.
      destruct (Hval Hne) as [pkg [Hpkg [Happ Harch]]].
      exists pkg. rewrite <- Hpid.
      split; [unfold package_row, packagesQuery in *; by rewrite Hp |].
      cbn [inserted_row row_application_id row_arch row_id].
      repeat split; try assumption.
      apply Hfreshbl. by apply package_row_Some in Hpkg as [? _].
Qed.

Lemma DeleteChannel_inv o (channelID : string) d :
  sequential o -> channels_inv d ->
  channels_inv (tables (DeleteChannel o channelID d)).
Proof.
  intros Hseq [Hnd Hall].
  pose proof (DeleteChannel_eq o channelID d) as E. cbv zeta in E.
  rewrite E; clear E. rewrite !Hseq. unfold tables.
  destruct (fault o DeleteChannelRow); [by split |].
  split; simpl.
  - eapply sublist_NoDup; [exact Hnd |].
    apply fmap_sublist, sublist_filter.
  - apply Forall_forall. intros r Hr.
    apply list_elem_of_filter in Hr as [_ Hr].
    rewrite Forall_forall in Hall.
    apply (placement_ok_same_packages d); [reflexivity | by apply Hall].
Qed.

Lemma reads_keep_tables o d :
  sequential o ->
  (forall channelID : string, tables (GetChannel o channelID d) = d) /\
  (forall channelID : list string, tables (getSpecificChannels o channelID d) = d) /\
  (forall (appID : string) (page perPage : N),
     tables (GetChannels validatePaginationParams o appID page perPage d) = d).
Proof.
  intros Hseq. repeat split.
  - intros channelID. by rewrite GetChannel_eq, Hseq.
  - intros channelID. unfold getSpecificChannels, exec, tables.
    rewrite Hseq. by destruct (fault o SelectChannels).
  - intros appID page perPage. unfold GetChannels, exec, tables.
    destruct (validatePaginationParams page perPage).
    rewrite Hseq. by destruct (fault o SelectChannels).
Qed.

Lemma run_op_inv o op d :
  served_alone_1 o op d -> channels_inv d ->
  channels_inv
    (run_op IsValid activityChannelPackageUpdated activityInfo
       validatePaginationParams o op d).
Proof.
  intros [Hseq Hfresh] Hinv.
  destruct (reads_keep_tables o d Hseq) as [Hg [Hs Hl]].
  destruct op; simpl.
  - by apply AddChannel_inv.
  - by apply UpdateChannel_inv.
  - by apply DeleteChannel_inv.
  - by rewrite Hg.
  - by rewrite Hs.
  - by rewrite Hl.
Qed.

(** From tables that satisfy the invariant, every run of channel
    operations, each served alone and each insert given a new
    identifier, ends in tables that satisfy it. *)
Lemma channels_inv_preserved (steps : list (Oracle * ChannelOp)) d :
  channels_inv d ->
  served_alone IsValid activityChannelPackageUpdated activityInfo
    validatePaginationParams steps d ->
  channels_inv
    (run_ops IsValid activityChannelPackageUpdated activityInfo
       validatePaginationParams steps d).
Proof.
  revert d. induction steps as [|[o op] steps IH]; intros d Hinv Hsa;
    [assumption |].
  destruct Hsa as [H1 Hrest]. simpl. apply IH; [| assumption].
  by apply run_op_inv.
Qed.

(** ** Lists of channels *)

Lemma name_le_total : Total (name_le (Arch := Arch)).
Proof. intros r1 r2. unfold name_le. apply String.leb_total. Qed.

Lemma Sorted_drop {A} (R : relation A) (n : nat) (l : list A) :
  Sorted R l -> Sorted R (drop n l).
Proof.
  revert l. induction n as [|n IH]; intros l Hs; [by rewrite drop_0 |].
  destruct l as [|x l]; [constructor |].
  simpl. apply IH. by apply Sorted_inv in Hs as [? _].
Qed.

Lemma Sorted_take {A} (R : relation A) (n : nat) (l : list A) :
  Sorted R l -> Sorted R (take n l).
Proof.
  revert n. induction l as [|x l IH]; intros n Hs;
    [rewrite take_nil; constructor |].
  destruct n as [|n]; [constructor |].
  apply Sorted_inv in Hs as [Hs Hhd]. simpl. constructor; [by apply IH |].
  destruct Hhd as [|y l Hxy]; [rewrite take_nil; constructor |].
  destruct n; simpl; constructor. assumption.
Qed.

Lemma channelsQuery_sorted (P : ChannelRow -> Prop) `{!forall r, Decision (P r)} d :
  Sorted Channel_name_le (channelsQuery P d) /\
  channelsQuery P d ≡ₚ channel_doc d <$> filter P (tbl_channel d).
Proof.
  unfold channelsQuery. split.
  - apply (Sorted_fmap (channel_doc d) name_le Channel_name_le).
    + intros r1 r2 Hle. exact Hle.
    + apply Sorted_merge_sort, name_le_total.
  - by rewrite merge_sort_Permutation.
Qed.

Lemma uint64_pred (n : N) :
  (1 <= n)%N -> (n < 2 ^ 64)%N -> ((n + 2 ^ 64 - 1) mod 2 ^ 64 = n - 1)%N.
Proof.
  intros H1 H2.
  replace (n + 2 ^ 64 - 1)%N with (n - 1 + 1 * 2 ^ 64)%N by lia.
  rewrite N.Div0.mod_add. apply N.mod_small. lia.
Qed.

(** C10. When the store reports no error, [GetChannels] answers a page
    of the channels of the application: with (page, perPage) the values
    validatePaginationParams returns and the application's channels, as
    the tables stand at the read, put in ascending order of name, the
    answer is the perPage channels that follow the first
    (page - 1) * perPage of them (the product computed on 64 bits), so
    its i-th channel is the one at position (page - 1) * perPage + i.
    [getSpecificChannels] answers the channels with the identifiers
    given, in ascending order of name, unpaged. *)
Theorem channel_lists_sorted_by_name o d :
  fault o SelectChannels = None ->
  let d0 := interfere o SelectChannels d in
  (forall (appID : string) (page perPage : N),
     let p := (validatePaginationParams page perPage).1 in
     let pp := (validatePaginationParams page perPage).2 in
     exists all answer,
       outcome (GetChannels validatePaginationParams o appID page perPage d)
       = Ok answer /\
       all ≡ₚ channel_doc d0 <$>
               filter (fun r => row_application_id r = appID) (tbl_channel d0) /\
       Sorted Channel_name_le all /\
       answer
       = take (N.to_nat pp)
           (drop (N.to_nat ((((p + 2 ^ 64 - 1) mod 2 ^ 64) * pp) mod 2 ^ 64)%N)
              all) /\
       ((1 <= p)%N -> (p < 2 ^ 64)%N -> ((p - 1) * pp < 2 ^ 64)%N ->
        (length answer <= N.to_nat pp)%nat /\
        forall i : nat, (i < N.to_nat pp)%nat ->
          answer !! i = all !! (N.to_nat ((p - 1) * pp) + i)%nat) /\
       Sorted Channel_name_le answer /\
       (forall c, c ∈ answer -> Channel_ApplicationID c = appID)) /\
  (forall channelID : list string,
     exists all,
       outcome (getSpecificChannels o channelID d) = Ok all /\
       all ≡ₚ channel_doc d0 <$>
               filter (fun r => row_id r ∈ channelID) (tbl_channel d0) /\
       Sorted Channel_name_le all /\
       (forall c, c ∈ all -> Channel_ID c ∈ channelID)).
Proof.
  intros Hf d0. split.
  - intros appID page perPage p pp. subst p pp. unfold GetChannels.
    destruct (validatePaginationParams page perPage) as [p pp].
    cbn [fst snd].
    exists (channelsQuery (fun r => row_application_id r = appID) d0).
    destruct (channelsQuery_sorted (fun r => row_application_id r = appID) d0)
      as [Hs Hp].
    exists (Paginate p pp
              (channelsQuery (fun r => row_application_id r = appID) d0)).
    split; [unfold exec, outcome; by rewrite Hf |].
    split; [exact Hp |]. split; [exact Hs |].
    split; [reflexivity |]. split; [| split].
    + intros H1 H2 H3. unfold Paginate, uint64.
      rewrite uint64_pred by assumption.
      rewrite (N.mod_small ((p - 1) * pp)) by assumption.
      split.
      * rewrite length_take. lia.
      * intros i Hi. rewrite lookup_take_lt by assumption.
        by rewrite lookup_drop.
    + unfold Paginate. by apply Sorted_take, Sorted_drop.
    + intros c Hc. unfold Paginate in Hc.
      apply subseteq_take, subseteq_drop in Hc.
      rewrite Hp in Hc. apply list_elem_of_fmap in Hc as [r [-> Hr]].
      by apply list_elem_of_filter in Hr as [? _].
  - intros channelID.
    exists (channelsQuery (fun r => row_id r ∈ channelID) d0).
    destruct (channelsQuery_sorted (fun r => row_id r ∈ channelID) d0)
      as [Hs Hp].
    split; [| split; [exact Hp | split; [exact Hs |]]].
    + unfold getSpecificChannels, exec, outcome. by rewrite Hf.
    + intros c Hc. rewrite Hp in Hc.
      apply list_elem_of_fmap in Hc as [r [-> Hr]].
      by apply list_elem_of_filter in Hr as [? _].
Qed.

(** C5. A channel whose architecture is not valid is refused by
    [AddChannel] with [ErrInvalidArch] at once: whatever the store would
    answer, no store call is made (no package lookup, no insert, nothing
    tried again) and the tables are the ones it was given. *)
Theorem AddChannel_invalid_arch o channel d :
  IsValid (Channel_Arch channel) = false ->
  AddChannel IsValid o channel d = ((None, Some ErrInvalidArch), d, []).
Proof.
  intros Harch. unfold AddChannel. rewrite Harch. reflexivity.
Qed.

End Properties.

(** * The properties on the small catalog *)

Lemma validatePackage_outcomes_witness :
  outcome (GetPackage ex_quiet "p1" ex_db) = Ok ex_p1 /\
  outcome (validatePackage ex_quiet "p1" "c1" "app" 1%N ex_db) = Ok ex_p1 /\
  outcome (validatePackage ex_quiet "p1" "c2" "app" 1%N ex_db)
  = Err ErrBlacklistedChannel.
Proof.
  split; [reflexivity |].
  split.
  - apply (validatePackage_outcomes ex_quiet "p1" "c1" "app" 1%N ex_db ex_p1);
      [reflexivity | reflexivity | reflexivity |
       apply (bool_decide_unpack _); by vm_compute].
  - apply (validatePackage_outcomes ex_quiet "p1" "c2" "app" 1%N ex_db ex_p1);
      [reflexivity | reflexivity | reflexivity |
       apply (bool_decide_unpack _); by vm_compute].
Defined.

Lemma AddChannel_invalid_arch_witness :
  ex_IsValid 7%N = false /\
  AddChannel ex_IsValid ex_quiet
    (ex_new_channel "edge" (mkNullString "p1" true) 7%N) ex_db
  = ((None, Some ErrInvalidArch), ex_db, []).
Proof.
  split; [reflexivity |].
  apply (AddChannel_invalid_arch ex_IsValid ex_quiet); reflexivity.
Defined.


Lemma ex_quiet_sequential : sequential ex_quiet.
Proof. intros c d. reflexivity. Qed.

Lemma ex_db_inv : channels_inv ex_db.
Proof.
  split.
  - apply (bool_decide_unpack _). by vm_compute.
  - repeat constructor.
    + intros pid [= <-] _. exists ex_p1.
      repeat split. apply (bool_decide_unpack _). by vm_compute.
    + intros pid [=].
Qed.

Lemma ex_quiet_fresh : fresh_id ex_quiet ex_db.
Proof.
  split.
  - apply (bool_decide_unpack _). by vm_compute.
  - intros pkg H.
    repeat (apply elem_of_cons in H as [->|H];
            [apply (bool_decide_unpack _); by vm_compute |]).
    by apply elem_of_nil in H.
Qed.

Lemma blacklisted_assignment_refused_witness :
  "c2" ∈ Package_ChannelsBlacklist ex_p1 /\
  "c1" ∈ Package_ChannelsBlacklist ex_p3 /\
  ex_UpdateChannel ex_quiet
    (ex_channel "c2" "beta" (mkNullString "p1" true)) ex_db
  = (Some ErrBlacklistedChannel, ex_db, [SelectChannel; SelectPackage]) /\
  outcome (ex_UpdateChannel ex_quiet
             (ex_channel "c2" "beta" (mkNullString "p1" true)) ex_db)
  = Some ErrBlacklistedChannel /\
  outcome (ex_UpdateChannel ex_quiet
             (ex_channel "c1" "stable" (mkNullString "p3" true)) ex_db)
  = Some ErrInvalidPackage.
Proof.
  assert ("c2" ∈ Package_ChannelsBlacklist ex_p1) as Hbl
    by (apply (bool_decide_unpack _); by vm_compute).
  assert ("c1" ∈ Package_ChannelsBlacklist ex_p3) as Hbl3
    by (apply (bool_decide_unpack _); by vm_compute).
  split; [exact Hbl |]. split; [exact Hbl3 |]. split; [reflexivity |].
  split.
  - destruct (blacklisted_assignment_refused ex_IsValid
                ex_activityChannelPackageUpdated ex_activityInfo ex_quiet
                (ex_channel "c2" "beta" (mkNullString "p1" true)) ex_db ex_p1)
      as [_ Hupd]; [exact ex_quiet_sequential | reflexivity | discriminate |
                    reflexivity | exact Hbl |].
    destruct (Hupd (channel_doc ex_db ex_r2)) as (_ & _ & _ & Hwhich);
      [reflexivity |].
    apply Hwhich; reflexivity.
  - destruct (blacklisted_assignment_refused ex_IsValid
                ex_activityChannelPackageUpdated ex_activityInfo ex_quiet
                (ex_channel "c1" "stable" (mkNullString "p3" true)) ex_db ex_p3)
      as [_ Hupd]; [exact ex_quiet_sequential | reflexivity | discriminate |
                    reflexivity | exact Hbl3 |].
    destruct (Hupd (channel_doc ex_db ex_r1)) as (_ & Hwhich & _);
      [reflexivity |].
    apply Hwhich. discriminate.
Defined.

(** Package p3 blacklists channel c1 but belongs to another application:
    assigning it to c1 is refused with [ErrInvalidPackage]. *)
Lemma blacklisted_assignment_counterexample :
  "c1" ∈ Package_ChannelsBlacklist ex_p3 /\
  package_row ex_db "p3" = Some ex_p3 /\
  outcome (ex_UpdateChannel ex_quiet
             (ex_channel "c1" "stable" (mkNullString "p3" true)) ex_db)
  = Some ErrInvalidPackage /\
  outcome (ex_UpdateChannel ex_quiet
             (ex_channel "c1" "stable" (mkNullString "p3" true)) ex_db)
  <> Some ErrBlacklistedChannel.
Proof.
  split; [apply (bool_decide_unpack _); by vm_compute |].
  split; [reflexivity |].
  split; [reflexivity | by vm_compute].
Qed.

(** Clearing the package of channel c1 succeeds and changes its stored
    reference from p1 to NULL, and no activity entry is recorded. *)
Lemma UpdateChannel_activity_counterexample :
  let run := ex_UpdateChannel ex_quiet
               (ex_channel "c1" "stable" (mkNullString "" false)) ex_db in
  outcome run = None /\
  row_package_id <$> tbl_channel ex_db = [Some "p1"; None] /\
  row_package_id <$> tbl_channel (tables run) = [None; None] /\
  tbl_activity (tables run) = tbl_activity ex_db /\
  calls run = [SelectChannel; UpdateChannelRow].
Proof. repeat split. Qed.

Lemma GetChannel_snapshot_witness :
  exists r c,
    outcome (GetChannel ex_quiet "c1" ex_db) = Ok c /\
    r ∈ tbl_channel ex_db /\ row_id r = "c1" /\
    (forall pid, row_package_id r = Some pid ->
       Channel_Package c
       = head (filter (fun p => Package_ID p = pid) (tbl_package ex_db))).
Proof.
  destruct (GetChannel_snapshot ex_quiet "c1" ex_db) as [r [c H]];
    [reflexivity | exists ex_r1; split; [by left | reflexivity] |].
  exists r, c. destruct H as (Hc & _ & Hin & Hid & _ & _ & _ & Hpkg & _).
  repeat split; assumption.
Defined.



Lemma UpdateChannel_frame_witness :
  sequential ex_quiet /\
  ex_UpdateChannel ex_quiet
    (with_owner "app" 1%N (ex_channel "c1" "stable" (mkNullString "p4" true)))
    ex_db
  = ex_UpdateChannel ex_quiet
      (ex_channel "c1" "stable" (mkNullString "p4" true)) ex_db /\
  fixed_columns <$>
    tbl_channel (tables (ex_UpdateChannel ex_quiet
                           (ex_channel "c1" "renamed" (mkNullString "p2" true))
                           ex_db))
  = fixed_columns <$> tbl_channel ex_db.
Proof.
  split; [exact ex_quiet_sequential |]. split.
  - apply (UpdateChannel_frame ex_activityChannelPackageUpdated ex_activityInfo
             ex_quiet (ex_channel "c1" "stable" (mkNullString "p4" true)) ex_db).
  - apply (UpdateChannel_frame ex_activityChannelPackageUpdated ex_activityInfo
             ex_quiet (ex_channel "c1" "renamed" (mkNullString "p2" true)) ex_db).
    exact ex_quiet_sequential.
Defined.

Lemma UpdateChannel_clear_package_witness :
  let run := ex_UpdateChannel ex_quiet
               (ex_channel "c1" "stable" (mkNullString "" false)) ex_db in
  NullString_String (mkNullString "" false) = "" /\
  outcome run = None /\
  (SelectPackage ∉ calls run) /\
  tbl_channel (tables run)
  = updated_row (ex_channel "c1" "stable" (mkNullString "" false))
      <$> tbl_channel ex_db.
Proof.
  intros run. split; [reflexivity |].
  destruct (UpdateChannel_clear_package ex_activityChannelPackageUpdated
              ex_activityInfo ex_quiet
              (ex_channel "c1" "stable" (mkNullString "" false)) ex_db)
    as (Hnp & _ & _ & Hok); [reflexivity |].
  destruct Hok as (Hout & Htab & _);
    [exact ex_quiet_sequential | reflexivity | reflexivity |
     exists ex_r1; split; [by left | reflexivity] |].
  repeat split; assumption.
Defined.

Lemma channel_lists_sorted_by_name_witness :
  fault ex_quiet SelectChannels = None /\
  outcome (GetChannels ex_validatePaginationParams ex_quiet "app" 0 0 ex_db)
  = Ok [channel_doc ex_db ex_r2; channel_doc ex_db ex_r1] /\
  outcome (GetChannels ex_validatePaginationParams ex_quiet "app" 2 1 ex_db)
  = Ok [channel_doc ex_db ex_r1] /\
  outcome (getSpecificChannels ex_quiet ["c1"; "c7"] ex_db)
  = Ok [channel_doc ex_db ex_r1] /\
  exists all answer,
    outcome (GetChannels ex_validatePaginationParams ex_quiet "app" 2 1 ex_db)
    = Ok answer /\
    Sorted Channel_name_le all /\
    (length answer <= 1)%nat /\
    answer !! 0%nat = all !! 1%nat.
Proof.
  split; [reflexivity |]. split; [reflexivity |]. split; [reflexivity |].
  split; [reflexivity |].
  destruct (channel_lists_sorted_by_name ex_validatePaginationParams
              ex_quiet ex_db) as [Hlist _]; [reflexivity |].
  destruct (Hlist "app" 2%N 1%N)
    as (all & answer & Hout & _ & Hs & _ & Hpage & _).
  destruct Hpage as [Hlen Hnth]; [by vm_compute | by vm_compute | by vm_compute |].
  exists all, answer. repeat split; try assumption.
  apply (Hnth 0%nat). vm_compute. lia.
Defined.

(** * Further properties of the channel operations *)

Section MoreProperties.

#[local] Set Default Proof Using "Type".

Context {Arch : Type} `{!EqDecision Arch}.
Variable IsValid : Arch -> bool.
Variable activityChannelPackageUpdated : Z.
Variable activityInfo : Z.
Variable validatePaginationParams : N -> N -> N * N.

Implicit Types (o : Oracle (Arch := Arch)) (d : DB (Arch := Arch)).
Implicit Types (channel : Channel (Arch := Arch)) (pkg : Package (Arch := Arch)).
Implicit Types (r : ChannelRow (Arch := Arch)).

#[local] Abbreviation UpdateChannel' :=
  (UpdateChannel activityChannelPackageUpdated activityInfo).
#[local] Abbreviation AddChannel' := (AddChannel IsValid).

(** Rewrites a run of an operation into its call-by-call form. *)
Ltac by_calls :=
  repeat match goal with
    | |- context [UpdateChannel _ _ ?o ?c ?d] =>
        let E := fresh in
        pose proof (UpdateChannel_eq activityChannelPackageUpdated activityInfo o c d) as E;
        cbv zeta in E; rewrite E; clear E
    | |- context [AddChannel _ ?o ?c ?d] =>
        let E := fresh in
        pose proof (AddChannel_eq IsValid o c d) as E;
        cbv zeta in E; rewrite E; clear E
    | |- context [DeleteChannel ?o ?c ?d] =>
        let E := fresh in
        pose proof (DeleteChannel_eq o c d) as E;
        cbv zeta in E; rewrite E; clear E
    end.

(** Closes a goal whose hypothesis says a call is in a concrete list of
    other calls. *)
Ltac absent_call H :=
  exfalso;
  repeat (apply elem_of_cons in H as [H|H]; [discriminate H || congruence |]);
  by apply elem_of_nil in H.

(** ** Failure leaves no trace *)

(** X1. Served alone, an [AddChannel], [UpdateChannel] or
    [DeleteChannel] that returns an error leaves the tables exactly as
    they were. *)
Theorem failed_operation_changes_nothing o channel (channelID : string) d :
  sequential o ->
  (snd (outcome (AddChannel' o channel d)) <> None ->
   tables (AddChannel' o channel d) = d) /\
  (outcome (UpdateChannel' o channel d) <> None ->
   tables (UpdateChannel' o channel d) = d) /\
  (outcome (DeleteChannel o channelID d) <> None ->
   tables (DeleteChannel o channelID d) = d).
Proof.
  intros Hseq. split; [| split]; by_calls; rewrite !Hseq;
    unfold outcome, tables.
  - repeat case_match; simpl; intros Hfail; try reflexivity; by destruct Hfail.
  - repeat case_match; simpl; intros Hfail; try reflexivity;
      try (by destruct Hfail).
    all: match goal with
         | Hz : length _ = 0 |- _ =>
             rewrite no_row_updated by (by apply rows_affected_0);
             apply set_tbl_channel_same
         end.
  - destruct (fault o DeleteChannelRow); [reflexivity |].
    destruct (decide (length _ = 0)) as [Hz|]; simpl; [| by intros []].
    intros _. rewrite no_row_deleted by (by apply rows_affected_0).
    apply set_tbl_channel_same.
Qed.

(** X2. An error the store reports at any call an operation makes, other
    than the activity insert, is the error the operation returns. *)
Theorem store_error_is_returned o channel (channelID appID : string)
  (ids : list string) (page perPage : N) d (c : StoreCall) (e : error) :
  fault o c = Some e -> c <> InsertActivity ->
  (c ∈ calls (AddChannel' o channel d) ->
   snd (outcome (AddChannel' o channel d)) = Some e) /\
  (c ∈ calls (UpdateChannel' o channel d) ->
   outcome (UpdateChannel' o channel d) = Some e) /\
  (c ∈ calls (DeleteChannel o channelID d) ->
   outcome (DeleteChannel o channelID d) = Some e) /\
  (c ∈ calls (GetChannel o channelID d) ->
   outcome (GetChannel o channelID d) = Err e) /\
  (c ∈ calls (getSpecificChannels o ids d) ->
   outcome (getSpecificChannels o ids d) = Err e) /\
  (c ∈ calls (GetChannels validatePaginationParams o appID page perPage d) ->
   outcome (GetChannels validatePaginationParams o appID page perPage d) = Err e).
Proof.
  intros Hf Hc.
  repeat split; by_calls; rewrite ?GetChannel_eq;
    unfold getSpecificChannels, GetChannels, exec, calls, outcome;
    repeat case_match; simpl; intros Hl;
    repeat (apply elem_of_cons in Hl as [->|Hl]);
    try (by apply elem_of_nil in Hl); congruence.
Qed.

(** X3. The activity entry is attempted only once the update has gone
    through, and its failure is ignored: a run that reaches the activity
    insert returns no error, and when the store refuses the entry the
    channel is updated all the same and no entry is recorded. *)
Theorem activity_failure_is_ignored o channel d :
  let run := UpdateChannel' o channel d in
  InsertActivity ∈ calls run ->
  outcome run = None /\
  (forall e, sequential o -> fault o InsertActivity = Some e ->
     tbl_channel (tables run) = updated_row channel <$> tbl_channel d /\
     tbl_activity (tables run) = tbl_activity d).
Proof.
  intros run. subst run. by_calls. unfold calls, outcome, tables.
  repeat case_match; simpl; intros Hl; try absent_call Hl.
  all: split; [reflexivity |]; intros e' Hseq Hfa;
    first [discriminate Hfa | by rewrite !Hseq].
Qed.

(** ** Adding a channel *)

(** X4. Served alone by a store that reports no error, [AddChannel]
    accepts a channel exactly when its architecture is valid and its
    package reference is empty or names a package of the channel's
    application and architecture whose blacklist does not contain the
    identifier given in the struct. *)
Theorem AddChannel_accepts_iff o channel d :
  sequential o -> (forall c, fault o c = None) ->
  let ref := NullString_String (Channel_PackageID channel) in
  snd (outcome (AddChannel' o channel d)) = None <->
  IsValid (Channel_Arch channel) = true /\
  (ref = EmptyString \/
   exists pkg,
     package_row d ref = Some pkg /\
     Package_ApplicationID pkg = Channel_ApplicationID channel /\
     Package_Arch pkg = Channel_Arch channel /\
     Channel_ID channel ∉ Package_ChannelsBlacklist pkg).
Proof.
  intros Hseq Hnf ref. by_calls. fold ref. rewrite !Hseq, !Hnf.
  unfold outcome. destruct (IsValid (Channel_Arch channel)); simpl.
  2: { split; [discriminate | by intros [? _]]. }
  destruct (decide (ref <> EmptyString)) as [Href|Href].
  2: { apply dec_stable in Href. split; [| reflexivity].
       intros _. split; [reflexivity | by left]. }
  destruct (package_row d ref) as [pkg|] eqn:Hpkg; simpl.
  2: { split; [discriminate |]. intros [_ [?|[pkg [? _]]]]; congruence. }
  destruct (decide (Package_ApplicationID pkg <> Channel_ApplicationID channel))
    as [Happ|Happ]; simpl.
  { split; [discriminate |].
    intros [_ [?|[pkg' [Hp [Ha _]]]]]; [done |]. congruence. }
  destruct (decide (Package_Arch pkg <> Channel_Arch channel))
    as [Harch|Harch]; simpl.
  { split; [discriminate |].
    intros [_ [?|[pkg' [Hp [_ [Ha _]]]]]]; [done |]. congruence. }
  apply dec_stable in Happ. apply dec_stable in Harch.
  destruct (inBlacklist _ _) eqn:Hbl; simpl.
  - apply inBlacklist_elem_of in Hbl. split; [discriminate |].
    intros [_ [?|[pkg' [Hp [_ [_ Hn]]]]]]; [done |].
    assert (pkg' = pkg) as -> by congruence. done.
  - apply inBlacklist_not_elem_of in Hbl. split; [| reflexivity].
    intros _. split; [reflexivity |]. right. by exists pkg.
Qed.

(** X5. Served alone, an accepted [AddChannel] appends one row to the
    channels and touches nothing else.  The row's identifier and
    creation time are the store's, not the ones in the struct given; its
    other columns are the struct's; and the struct returned carries the
    row's columns and the Package field it was given. *)
Theorem AddChannel_effect o channel d :
  sequential o ->
  snd (outcome (AddChannel' o channel d)) = None ->
  let row := mkChannelRow (gen_id o) (Channel_Name channel)
               (Channel_Color channel) (gen_ts o)
               (Channel_ApplicationID channel)
               (NullString_Value (Channel_PackageID channel))
               (Channel_Arch channel) in
  tables (AddChannel' o channel d)
  = mkDB (tbl_channel d ++ [row]) (tbl_package d) (tbl_activity d) /\
  fst (outcome (AddChannel' o channel d))
  = Some (mkChannel (gen_id o) (Channel_Name channel) (Channel_Color channel)
            (gen_ts o) (Channel_ApplicationID channel)
            (NullString_Scan (NullString_Value (Channel_PackageID channel)))
            (Channel_Package channel) (Channel_Arch channel)).
Proof.
  intros Hseq. by_calls. rewrite !Hseq. unfold outcome, tables.
  repeat case_match; simpl; intros Hok; try discriminate; by split.
Qed.

(** X6. With an empty package reference [AddChannel] looks up no
    package, and it accepts the channel exactly when the architecture is
    valid and the store takes the insert. *)
Theorem AddChannel_without_package o channel d :
  NullString_String (Channel_PackageID channel) = EmptyString ->
  (SelectPackage ∉ calls (AddChannel' o channel d)) /\
  (snd (outcome (AddChannel' o channel d)) = None <->
   IsValid (Channel_Arch channel) = true /\ fault o InsertChannel = None).
Proof.
  intros Href. by_calls. rewrite Href. unfold calls, outcome.
  destruct (decide (EmptyString <> EmptyString)) as [Hn|_]; [by destruct Hn |].
  destruct (IsValid (Channel_Arch channel)); simpl.
  2: { split; [intros Hl; absent_call Hl |].
       split; [discriminate | by intros [? _]]. }
  destruct (fault o InsertChannel); simpl.
  - split; [intros Hl; absent_call Hl |].
    split; [discriminate | by intros [_ ?]].
  - split; [intros Hl; absent_call Hl | done].
Qed.

Lemma AddChannel_accepted_run o channel d :
  sequential o ->
  snd (outcome (AddChannel' o channel d)) = None ->
  tables (AddChannel' o channel d)
  = set_tbl_channel (tbl_channel d ++ [inserted_row o channel]) d /\
  fst (outcome (AddChannel' o channel d))
  = Some (scan_row (inserted_row o channel) channel).
Proof.
  intros Hseq. by_calls. rewrite !Hseq. unfold outcome, tables.
  repeat case_match; simpl; intros Hok; try discriminate; by split.
Qed.

Lemma GetChannel_alone o (channelID : string) d :
  sequential o -> fault o SelectChannel = None ->
  outcome (GetChannel o channelID d)
  = match read_row d channelID with
    | Some r => Ok (channel_doc d r)
    | None => Err ErrNotFound
    end.
Proof. intros Hseq Hf. by rewrite GetChannel_eq, !Hseq, Hf. Qed.

(** X7. Round trip: served alone, and the store having given the new
    row an identifier no channel had, reading back the identifier that an
    accepted [AddChannel] returned gives the channel it returned, with
    its Package field resolved to the package row the stored reference
    names (none for NULL). *)
Theorem AddChannel_then_GetChannel o o' channel d c' :
  sequential o -> sequential o' -> fault o' SelectChannel = None ->
  (gen_id o ∉ row_id <$> tbl_channel d) ->
  outcome (AddChannel' o channel d) = (Some c', None) ->
  exists c'',
    outcome (GetChannel o' (Channel_ID c') (tables (AddChannel' o channel d)))
    = Ok c'' /\
    (Channel_ID c'', Channel_Name c'', Channel_Color c'', Channel_CreatedTs c'',
     Channel_ApplicationID c'', Channel_PackageID c'', Channel_Arch c'')
    = (Channel_ID c', Channel_Name c', Channel_Color c', Channel_CreatedTs c',
       Channel_ApplicationID c', Channel_PackageID c', Channel_Arch c') /\
    Channel_Package c''
    = match NullString_Value (Channel_PackageID channel) with
      | Some pid => package_row d pid
      | None => None
      end.
Proof.
  intros Hseq Hseq' Hf' Hfresh Hout.
  destruct (AddChannel_accepted_run o channel d Hseq) as [Ht Hc];
    [by rewrite Hout |].
  rewrite Hout in Hc. injection Hc as ->. rewrite Ht; clear Ht Hout.
  rewrite GetChannel_alone by assumption.
  set (row := inserted_row o channel).
  set (d' := set_tbl_channel (tbl_channel d ++ [row]) d).
  assert (read_row d' (gen_id o) = Some row) as Hrow.
  { destruct (read_row_is_Some d' (gen_id o) row) as [r Hr];
      [apply elem_of_app; right; by left | reflexivity |].
    rewrite Hr. f_equal.
    apply read_row_Some in Hr as [Hin Hid].
    apply elem_of_app in Hin as [Hin|Hin].
    - exfalso. apply Hfresh. rewrite <- Hid.
      apply list_elem_of_fmap. eauto.
    - by apply list_elem_of_singleton in Hin. }
  change (Channel_ID (scan_row row channel)) with (gen_id o). rewrite Hrow.
  eexists. split; [reflexivity |]. split; reflexivity.
Qed.

(** ** Updating a channel *)

(** X8. Served alone by a store that reports no error, with channel
    identifiers unique, [UpdateChannel] accepts exactly when a channel
    with the identifier is stored and the new package reference is empty
    or names a package of that stored channel's application and
    architecture whose blacklist does not contain the identifier. *)
Theorem UpdateChannel_accepts_iff o channel d :
  sequential o -> (forall c, fault o c = None) ->
  NoDup (row_id <$> tbl_channel d) ->
  let ref := NullString_String (Channel_PackageID channel) in
  outcome (UpdateChannel' o channel d) = None <->
  exists r,
    r ∈ tbl_channel d /\ row_id r = Channel_ID channel /\
    (ref = EmptyString \/
     exists pkg,
       package_row d ref = Some pkg /\
       Package_ApplicationID pkg = row_application_id r /\
       Package_Arch pkg = row_arch r /\
       Channel_ID channel ∉ Package_ChannelsBlacklist pkg).
Proof.
  intros Hseq Hnf Hnd ref. by_calls. fold ref. rewrite !Hseq, !Hnf.
  unfold outcome.
  destruct (read_row d (Channel_ID channel)) as [r|] eqn:Hr; simpl.
  2: { split; [discriminate |]. intros [r [Hin [Hid _]]].
       destruct (read_row_is_Some d _ r Hin Hid) as [? ?]. congruence. }
  apply read_row_Some in Hr as [Hin Hid].
  assert (forall r', r' ∈ tbl_channel d -> row_id r' = Channel_ID channel ->
                     r' = r) as Huniq.
  { intros r' Hin' Hid'.
    apply (unique_key_eq row_id (tbl_channel d)); congruence. }
  assert (length (filter (fun r0 => row_id r0 = Channel_ID channel)
                    (tbl_channel d)) <> 0) as Hhit.
  { intros Hz. by apply (proj1 (rows_affected_0 _ _) Hz r). }
  destruct (decide (ref <> EmptyString)) as [Href|Href].
  2: { apply dec_stable in Href. rewrite decide_False by assumption.
       split; [| reflexivity]. intros _. exists r. by repeat split; try left. }
  destruct (package_row d ref) as [pkg|] eqn:Hpkg; simpl.
  2: { split; [discriminate |].
       intros [r' [_ [_ [?|[pkg [? _]]]]]]; congruence. }
  destruct (decide (Package_ApplicationID pkg <> row_application_id r))
    as [Happ|Happ]; simpl.
  { split; [discriminate |].
    intros [r' [Hin' [Hid' [?|[pkg' [Hp [Ha _]]]]]]]; [done |].
    rewrite (Huniq r' Hin' Hid') in Ha. congruence. }
  destruct (decide (Package_Arch pkg <> row_arch r)) as [Harch|Harch]; simpl.
  { split; [discriminate |].
    intros [r' [Hin' [Hid' [?|[pkg' [Hp [_ [Ha _]]]]]]]]; [done |].
    rewrite (Huniq r' Hin' Hid') in Ha. congruence. }
  apply dec_stable in Happ. apply dec_stable in Harch.
  destruct (inBlacklist _ _) eqn:Hbl; simpl.
  - apply inBlacklist_elem_of in Hbl. split; [discriminate |].
    intros [r' [_ [_ [?|[pkg' [Hp [_ [_ Hn]]]]]]]]; [done |].
    assert (pkg' = pkg) as -> by congruence. done.
  - apply inBlacklist_not_elem_of in Hbl. rewrite decide_False by assumption.
    split.
    + intros _. exists r. repeat split; try assumption. right. by exists pkg.
    + intros _. by repeat case_match.
Qed.

Lemma UpdateChannel_accepted_run o channel d :
  sequential o ->
  outcome (UpdateChannel' o channel d) = None ->
  tbl_channel (tables (UpdateChannel' o channel d))
  = updated_row channel <$> tbl_channel d /\
  tbl_package (tables (UpdateChannel' o channel d)) = tbl_package d /\
  exists r,
    read_row d (Channel_ID channel) = Some r /\
    fault o SelectChannel = None /\ fault o UpdateChannelRow = None /\
    (NullString_String (Channel_PackageID channel) <> EmptyString ->
     fault o SelectPackage = None /\
     exists pkg,
       package_row d (NullString_String (Channel_PackageID channel)) = Some pkg /\
       Package_ApplicationID pkg = row_application_id r /\
       Package_Arch pkg = row_arch r /\
       inBlacklist (Channel_ID channel) (Package_ChannelsBlacklist pkg) = false).
Proof.
  intros Hseq. by_calls. rewrite !Hseq. unfold outcome, tables.
  destruct (fault o SelectChannel); [discriminate |].
  destruct (read_row d (Channel_ID channel)) as [r|]; [| discriminate].
  destruct (decide (_ <> EmptyString)) as [Href|Href].
  - destruct (fault o SelectPackage); [discriminate |].
    destruct (package_row d _) as [pkg|]; [| discriminate].
    destruct (decide (Package_ApplicationID pkg <> row_application_id r))
      as [|Happ]; [discriminate |].
    destruct (decide (Package_Arch pkg <> row_arch r)) as [|Harch];
      [discriminate |].
    destruct (inBlacklist _ _) eqn:Hbl; [discriminate |].
    apply dec_stable in Happ. apply dec_stable in Harch.
    destruct (fault o UpdateChannelRow); [discriminate |].
    destruct (decide (length _ = 0)); [discriminate |].
    repeat case_match; simpl; intros _; (split; [reflexivity |]);
      (split; [reflexivity |]); exists r;
      (split; [reflexivity |]); (split; [reflexivity |]);
      (split; [reflexivity |]); intros _; (split; [reflexivity |]);
      by exists pkg.
  - destruct (fault o UpdateChannelRow); [discriminate |].
    destruct (decide (length _ = 0)); [discriminate |].
    intros _. simpl. split; [reflexivity |]. split; [reflexivity |].
    exists r. repeat split; done.
Qed.

Lemma channel_doc_same_packages d d' r :
  tbl_package d' = tbl_package d -> channel_doc d' r = channel_doc d r.
Proof.
  intros Hp. unfold channel_doc, embedded_package, packagesQuery.
  by rewrite Hp.
Qed.

(** X9. Round trip: with channel identifiers unique and served alone,
    reading a channel after an accepted [UpdateChannel] gives the name,
    color and package reference of the update (the reference as stored:
    NULL when not valid), the identifier, creation time, application and
    architecture it had before, and as Package the package row the
    stored reference names. *)
Theorem UpdateChannel_then_GetChannel o o' channel d stored :
  sequential o -> sequential o' -> fault o' SelectChannel = None ->
  NoDup (row_id <$> tbl_channel d) ->
  outcome (GetChannel o' (Channel_ID channel) d) = Ok stored ->
  outcome (UpdateChannel' o channel d) = None ->
  exists c'',
    outcome (GetChannel o' (Channel_ID channel)
               (tables (UpdateChannel' o channel d))) = Ok c'' /\
    (Channel_Name c'', Channel_Color c'', Channel_PackageID c'')
    = (Channel_Name channel, Channel_Color channel,
       NullString_Scan (NullString_Value (Channel_PackageID channel))) /\
    (Channel_ID c'', Channel_CreatedTs c'', Channel_ApplicationID c'',
     Channel_Arch c'')
    = (Channel_ID stored, Channel_CreatedTs stored,
       Channel_ApplicationID stored, Channel_Arch stored) /\
    Channel_Package c''
    = match NullString_Value (Channel_PackageID channel) with
      | Some pid => package_row d pid
      | None => None
      end.
Proof.
  intros Hseq Hseq' Hf' Hnd Hget Hok.
  destruct (UpdateChannel_accepted_run o channel d Hseq Hok)
    as (Hc & Hp & r & Hr & _).
  rewrite GetChannel_alone in Hget by assumption. rewrite Hr in Hget.
  injection Hget as <-.
  rewrite GetChannel_alone by assumption.
  set (d' := tables (UpdateChannel' o channel d)) in *.
  apply read_row_Some in Hr as [Hin Hid].
  assert (read_row d' (Channel_ID channel) = Some (updated_row channel r))
    as Hrow.
  { destruct (read_row_is_Some d' (Channel_ID channel) (updated_row channel r))
      as [r' Hr'].
    - rewrite Hc. apply list_elem_of_fmap. eauto.
    - by rewrite updated_row_id.
    - rewrite Hr'. f_equal.
      apply read_row_Some in Hr' as [Hin' Hid']. rewrite Hc in Hin'.
      apply list_elem_of_fmap in Hin' as [r0 [-> Hr0]]. f_equal.
      rewrite updated_row_id in Hid'.
      apply (unique_key_eq row_id (tbl_channel d)); congruence. }
  rewrite Hrow. eexists. split; [reflexivity |].
  rewrite (channel_doc_same_packages d d') by assumption.
  unfold updated_row. rewrite decide_True by assumption.
  split; [reflexivity |]. split; [reflexivity |].
  cbn [channel_doc Channel_Package embedded_package row_package_id].
  by destruct (NullString_Value (Channel_PackageID channel)).
Qed.

Lemma filter_id_updated channel (other : string) (rows : list ChannelRow) :
  other <> Channel_ID channel ->
  filter (fun r => row_id r = other) (updated_row channel <$> rows)
  = filter (fun r => row_id r = other) rows.
Proof.
  intros Hne. induction rows as [|r rows IH]; [reflexivity |].
  rewrite fmap_cons, !filter_cons, updated_row_id, IH.
  destruct (decide (row_id r = other)) as [Hid|]; [| reflexivity].
  rewrite updated_row_miss by congruence. reflexivity.
Qed.

Lemma filter_id_deleted (channelID other : string) (rows : list ChannelRow) :
  other <> channelID ->
  filter (fun r => row_id r = other)
    (filter (fun r => row_id r <> channelID) rows)
  = filter (fun r => row_id r = other) rows.
Proof.
  intros Hne. induction rows as [|r rows IH]; [reflexivity |].
  rewrite !filter_cons.
  destruct (decide (row_id r <> channelID)) as [Hr|Hr].
  - by rewrite filter_cons, IH.
  - apply dec_stable in Hr. rewrite IH.
    rewrite decide_False by congruence. reflexivity.
Qed.

Lemma GetChannel_same_rows o (x : string) d d' :
  sequential o ->
  tbl_package d' = tbl_package d ->
  filter (fun r => row_id r = x) (tbl_channel d')
  = filter (fun r => row_id r = x) (tbl_channel d) ->
  outcome (GetChannel o x d') = outcome (GetChannel o x d).
Proof.
  intros Hseq Hp Hrows. rewrite !GetChannel_eq, !Hseq. unfold outcome, read_row.
  simpl. rewrite Hrows. destruct (fault o SelectChannel); [reflexivity |].
  destruct (head _); [| reflexivity].
  by rewrite (channel_doc_same_packages d d').
Qed.

(** X10. Served alone, adding, updating or deleting one channel does not
    change what [GetChannel] returns for any other identifier. *)
Theorem other_channels_unaffected o o' channel (channelID other : string) d :
  sequential o -> sequential o' ->
  (other <> gen_id o ->
   outcome (GetChannel o' other (tables (AddChannel' o channel d)))
   = outcome (GetChannel o' other d)) /\
  (other <> Channel_ID channel ->
   outcome (GetChannel o' other (tables (UpdateChannel' o channel d)))
   = outcome (GetChannel o' other d)) /\
  (other <> channelID ->
   outcome (GetChannel o' other (tables (DeleteChannel o channelID d)))
   = outcome (GetChannel o' other d)).
Proof.
  intros Hseq Hseq'. split; [| split]; intros Hne;
    apply GetChannel_same_rows; try assumption.
  - by destruct (AddChannel_tables IsValid o channel d Hseq) as [? _].
  - destruct (AddChannel_tables IsValid o channel d Hseq) as [_ [->|[-> _]]];
      [reflexivity |].
    rewrite filter_app, filter_cons, decide_False by (simpl; congruence).
    by rewrite filter_nil, app_nil_r.
  - by destruct (UpdateChannel_tables activityChannelPackageUpdated activityInfo
                   o channel d Hseq) as [? _].
  - destruct (UpdateChannel_tables activityChannelPackageUpdated activityInfo
                o channel d Hseq) as [_ [->|[-> _]]]; [reflexivity |].
    by apply filter_id_updated.
  - by_calls. rewrite !Hseq. by destruct (fault o DeleteChannelRow).
  - by_calls. rewrite !Hseq. unfold tables.
    destruct (fault o DeleteChannelRow); [reflexivity |].
    by apply filter_id_deleted.
Qed.

Lemma updated_row_twice channel r :
  updated_row channel (updated_row channel r) = updated_row channel r.
Proof.
  unfold updated_row. destruct (decide (row_id r = Channel_ID channel)) as [H|H].
  - simpl. by rewrite decide_True.
  - by rewrite decide_False.
Qed.

Lemma read_row_after_update channel d d1 r :
  NoDup (row_id <$> tbl_channel d) ->
  tbl_channel d1 = updated_row channel <$> tbl_channel d ->
  read_row d (Channel_ID channel) = Some r ->
  read_row d1 (Channel_ID channel) = Some (updated_row channel r).
Proof.
  intros Hnd Hc Hr. apply read_row_Some in Hr as [Hin Hid].
  destruct (read_row_is_Some d1 (Channel_ID channel) (updated_row channel r))
    as [r' Hr'].
  - rewrite Hc. apply list_elem_of_fmap. eauto.
  - by rewrite updated_row_id.
  - rewrite Hr'. f_equal.
    apply read_row_Some in Hr' as [Hin' Hid']. rewrite Hc in Hin'.
    apply list_elem_of_fmap in Hin' as [r0 [-> Hr0]]. f_equal.
    rewrite updated_row_id in Hid'.
    apply (unique_key_eq row_id (tbl_channel d)); congruence.
Qed.

(** X11. With channel identifiers unique and served alone, repeating an
    accepted [UpdateChannel] whose package reference is valid or empty is
    accepted again, leaves the channels as the first run left them and
    records no further activity. *)
Theorem UpdateChannel_repeated o channel d :
  sequential o ->
  NoDup (row_id <$> tbl_channel d) ->
  NullString_Valid (Channel_PackageID channel) = true \/
  NullString_String (Channel_PackageID channel) = EmptyString ->
  outcome (UpdateChannel' o channel d) = None ->
  let d1 := tables (UpdateChannel' o channel d) in
  outcome (UpdateChannel' o channel d1) = None /\
  tbl_channel (tables (UpdateChannel' o channel d1)) = tbl_channel d1 /\
  tbl_activity (tables (UpdateChannel' o channel d1)) = tbl_activity d1.
Proof.
  intros Hseq Hnd Hcanon Hok d1.
  destruct (UpdateChannel_accepted_run o channel d Hseq Hok)
    as (Hc & Hp & r & Hr & Hf1 & Hf2 & Hval).
  fold d1 in Hc, Hp. clearbody d1. clear Hok.
  pose proof (read_row_after_update channel d d1 r Hnd Hc Hr) as Hr1.
  apply read_row_Some in Hr as [Hin Hid].
  assert (length (filter (fun r0 => row_id r0 = Channel_ID channel)
                    (tbl_channel d1)) <> 0) as Hhit.
  { intros Hz. apply (proj1 (rows_affected_0 _ _) Hz (updated_row channel r)).
    - rewrite Hc. apply list_elem_of_fmap. eauto.
    - by rewrite updated_row_id. }
  assert (updated_row channel <$> tbl_channel d1 = tbl_channel d1) as Hsame.
  { rewrite Hc, <- list_fmap_compose. apply list_fmap_ext.
    intros i r0 _. apply updated_row_twice. }
  by_calls. rewrite !Hseq, Hf1, Hr1, Hf2. unfold outcome, tables.
  destruct (decide (length _ = 0)) as [Hz|_]; [by destruct Hhit |].
  destruct (decide (NullString_String (Channel_PackageID channel) <> EmptyString))
    as [Href|Href].
  - destruct (Hval Href) as (Hf3 & pkg & Hpkg & Happ & Harch & Hbl).
    destruct Hcanon as [Hvalid|Hempty]; [| by destruct Href].
    rewrite Hf3.
    replace (package_row d1 (NullString_String (Channel_PackageID channel)))
      with (Some pkg)
      by (unfold package_row, packagesQuery in *; by rewrite Hp).
    pose proof (updated_row_fixed_columns channel r) as Hfix.
    injection Hfix as _ Happ' Harch' _.
    rewrite Happ', Harch'.
    rewrite (decide_False (P := Package_ApplicationID pkg <> _))
      by (intros Hn; by apply Hn).
    rewrite (decide_False (P := Package_Arch pkg <> _))
      by (intros Hn; by apply Hn).
    rewrite Hbl. rewrite updated_row_hit by assumption.
    unfold NullString_Value. rewrite Hvalid. simpl.
    destruct (decide (_ <> _)) as [Hn|_]; [by destruct Hn |].
    simpl. by rewrite Hsame.
  - simpl. by rewrite Hsame.
Qed.

(** ** Deleting a channel *)

(** X12. Served alone and the store reporting no error, [DeleteChannel]
    succeeds exactly when a channel with the identifier is stored; it
    removes the rows with that identifier and keeps every other channel,
    in the same order, together with all packages and activity. *)
Theorem DeleteChannel_effect o (channelID : string) d :
  sequential o -> fault o DeleteChannelRow = None ->
  let run := DeleteChannel o channelID d in
  (outcome run = None <->
   exists r, r ∈ tbl_channel d /\ row_id r = channelID) /\
  (forall r, r ∈ tbl_channel (tables run) <->
             r ∈ tbl_channel d /\ row_id r <> channelID) /\
  tbl_channel (tables run) `sublist_of` tbl_channel d /\
  tbl_package (tables run) = tbl_package d /\
  tbl_activity (tables run) = tbl_activity d.
Proof.
  intros Hseq Hf run. subst run. by_calls. rewrite !Hseq, Hf.
  unfold outcome, tables. simpl.
  split; [split |]; [| | split; [intros r; split |]; [| | by split; [apply sublist_filter |]]].
  - destruct (decide (length _ = 0)) as [Hz|Hnz]; [discriminate |].
    intros _.
    destruct (filter (fun r => row_id r = channelID) (tbl_channel d))
      as [|r rest] eqn:E; [done |].
    assert (r ∈ filter (fun r => row_id r = channelID) (tbl_channel d)) as Hr
      by (rewrite E; by left).
    apply list_elem_of_filter in Hr as [? ?]. eauto.
  - intros [r [Hin Hid]]. rewrite decide_False; [reflexivity |].
    intros Hz. by apply (proj1 (rows_affected_0 _ _) Hz r).
  - intros Hr. by apply list_elem_of_filter in Hr as [? ?].
  - intros [? ?]. by apply list_elem_of_filter.
Qed.

(** X13. Once [DeleteChannel] has run for an identifier, served alone
    and with no store error, the channel is gone for the operations that
    follow: [GetChannel] and [UpdateChannel] answer [ErrNotFound] and a
    second [DeleteChannel] answers [ErrNoRowsAffected]. *)
Theorem deleted_channel_is_gone o o' channel d :
  sequential o -> sequential o' ->
  fault o DeleteChannelRow = None -> (forall c, fault o' c = None) ->
  let d' := tables (DeleteChannel o (Channel_ID channel) d) in
  outcome (GetChannel o' (Channel_ID channel) d') = Err ErrNotFound /\
  outcome (UpdateChannel' o' channel d') = Some ErrNotFound /\
  outcome (DeleteChannel o' (Channel_ID channel) d') = Some ErrNoRowsAffected.
Proof.
  intros Hseq Hseq' Hf Hnf d'.
  assert (forall r, r ∈ tbl_channel d' -> row_id r <> Channel_ID channel) as Hno.
  { subst d'. by_calls. rewrite !Hseq, Hf. unfold tables; simpl.
    intros r Hr. by apply list_elem_of_filter in Hr as [? _]. }
  clearbody d'. repeat split.
  - rewrite GetChannel_alone by done. by rewrite read_row_None.
  - by_calls. rewrite !Hseq', !Hnf. by rewrite read_row_None.
  - by_calls. rewrite !Hseq', !Hnf. unfold outcome; simpl.
    by rewrite decide_True by by apply rows_affected_0.
Qed.

(** ** Package lookups that fail *)

(** X14. When the package reference is not empty and the package lookup
    returns an error (the package is not stored, or the store fails),
    [AddChannel] and [UpdateChannel] return that error right after the
    lookup: nothing is inserted or updated, and the tables are the ones
    the lookup saw. *)
Theorem package_lookup_error_is_returned o channel d (e : error) :
  NullString_String (Channel_PackageID channel) <> EmptyString ->
  (IsValid (Channel_Arch channel) = true ->
   outcome (GetPackage o (NullString_String (Channel_PackageID channel)) d)
   = Err e ->
   AddChannel' o channel d
   = ((None, Some e), interfere o SelectPackage d, [SelectPackage])) /\
  (forall stored,
   outcome (GetChannel o (Channel_ID channel) d) = Ok stored ->
   outcome (GetPackage o (NullString_String (Channel_PackageID channel))
              (interfere o SelectChannel d)) = Err e ->
   UpdateChannel' o channel d
   = (Some e, interfere o SelectPackage (interfere o SelectChannel d),
      [SelectChannel; SelectPackage])).
Proof.
  intros Href. split.
  - intros Hvalid. rewrite GetPackage_eq. unfold outcome; simpl.
    by_calls. rewrite Hvalid; simpl. rewrite decide_True by assumption.
    destruct (fault o SelectPackage); [by intros [= ->] |].
    destruct (package_row _ _); [discriminate | by intros [= ->]].
  - intros stored. rewrite GetChannel_eq, GetPackage_eq. unfold outcome; simpl.
    by_calls.
    destruct (fault o SelectChannel); [discriminate |].
    destruct (read_row _ _); [| discriminate]. intros _.
    rewrite decide_True by assumption.
    destruct (fault o SelectPackage); [by intros [= ->] |].
    destruct (package_row _ _); [discriminate | by intros [= ->]].
Qed.

(** ** How the operations compose *)

(** X15. Round trip: served alone, and the store having given the new
    row an identifier no channel had, deleting the identifier that an
    accepted [AddChannel] returned succeeds and gives back the tables as
    they were before the channel was added. *)
Theorem AddChannel_then_DeleteChannel o o' channel d c' :
  sequential o -> sequential o' -> fault o' DeleteChannelRow = None ->
  (gen_id o ∉ row_id <$> tbl_channel d) ->
  outcome (AddChannel' o channel d) = (Some c', None) ->
  DeleteChannel o' (Channel_ID c') (tables (AddChannel' o channel d))
  = (None, d, [DeleteChannelRow]).
Proof.
  intros Hseq Hseq' Hf' Hfresh Hout.
  destruct (AddChannel_accepted_run o channel d Hseq) as [Ht Hc];
    [by rewrite Hout |].
  rewrite Hout in Hc. injection Hc as ->. rewrite Ht; clear Ht Hout.
  change (Channel_ID (scan_row (inserted_row o channel) channel))
    with (gen_id o).
  assert (forall r, r ∈ tbl_channel d -> row_id r <> gen_id o) as Hno.
  { intros r Hr Hid. apply Hfresh. rewrite <- Hid.
    apply list_elem_of_fmap. eauto. }
  by_calls. rewrite !Hseq', Hf'. cbn [set_tbl_channel tbl_channel].
  rewrite !filter_app, !filter_cons, !filter_nil.
  rewrite (decide_True (P := row_id (inserted_row o channel) = gen_id o))
    by reflexivity.
  rewrite (decide_False (P := row_id (inserted_row o channel) <> gen_id o))
    by (intros Hn; by apply Hn).
  rewrite no_row_deleted by assumption.
  rewrite length_app. simpl.
  rewrite decide_False by lia.
  rewrite app_nil_r. by destruct d.
Qed.

(** X16. Served alone, no channel operation writes to the packages, and
    none but [UpdateChannel] writes to the activity log; [UpdateChannel]
    leaves the log as it was or appends the single entry for the package
    it validated. *)
Theorem channel_operations_frame o (op : ChannelOp) d :
  sequential o ->
  let d' := run_op IsValid activityChannelPackageUpdated activityInfo
              validatePaginationParams o op d in
  tbl_package d' = tbl_package d /\
  (tbl_activity d' = tbl_activity d \/
   exists channel pkg,
     op = OpUpdateChannel channel /\
     package_row d (NullString_String (Channel_PackageID channel)) = Some pkg /\
     tbl_activity d'
     = tbl_activity d ++
       [mkActivity activityChannelPackageUpdated activityInfo
          (Package_Version pkg) (Package_ApplicationID pkg)
          (Channel_ID channel) (gen_ts o)]).
Proof.
  intros Hseq d'. subst d'.
  destruct (reads_keep_tables validatePaginationParams o d Hseq)
    as [Hg [Hs Hl]].
  destruct op as [channel|channel|channelID|channelID|ids|appID page perPage];
    cbn [run_op]; rewrite ?Hg, ?Hs, ?Hl; try (split; [reflexivity | by left]).
  - by_calls. rewrite !Hseq. unfold tables.
    repeat case_match; simpl; (split; [reflexivity | by left]).
  - by_calls. rewrite !Hseq. unfold tables.
    repeat case_match; simpl; (split; [reflexivity |]);
      first [by left | right; eexists _, _; by repeat split].
  - by_calls. rewrite !Hseq. unfold tables.
    repeat case_match; simpl; (split; [reflexivity | by left]).
Qed.

(** ** Activity on a change of package *)

Lemma read_row_unique d r :
  NoDup (row_id <$> tbl_channel d) -> r ∈ tbl_channel d ->
  read_row d (row_id r) = Some r.
Proof.
  intros Hnd Hin.
  destruct (read_row_is_Some d (row_id r) r Hin eq_refl) as [r' Hr'].
  rewrite Hr'. f_equal.
  apply read_row_Some in Hr' as [Hin' Hid'].
  by apply (unique_key_eq row_id (tbl_channel d)).
Qed.

(** C4, as amended. With channel identifiers unique, served alone, and
    for a package reference that is valid or empty: an accepted
    [UpdateChannel] leaves in the stored channel the reference it was
    given; when that reference is not empty and differs from the one
    stored before, exactly one activity entry is recorded (class, info
    severity, the package's version and application, the channel), the
    store accepting it; and no entry is recorded when the stored
    reference does not change, when the new reference is empty, or when
    the update fails. *)
Theorem UpdateChannel_activity o channel d r :
  sequential o ->
  NoDup (row_id <$> tbl_channel d) ->
  r ∈ tbl_channel d -> row_id r = Channel_ID channel ->
  NullString_Valid (Channel_PackageID channel) = true \/
  NullString_String (Channel_PackageID channel) = EmptyString ->
  let run := UpdateChannel' o channel d in
  let before := row_package_id r in
  let after := NullString_Value (Channel_PackageID channel) in
  let ref := NullString_String (Channel_PackageID channel) in
  (outcome run = None ->
   forall r', r' ∈ tbl_channel (tables run) ->
     row_id r' = Channel_ID channel -> row_package_id r' = after) /\
  (outcome run = None -> before <> after -> ref <> EmptyString ->
   fault o InsertActivity = None ->
   exists pkg,
     package_row d ref = Some pkg /\
     tbl_activity (tables run) =
     tbl_activity d ++
     [mkActivity activityChannelPackageUpdated activityInfo
        (Package_Version pkg) (Package_ApplicationID pkg)
        (Channel_ID channel) (gen_ts o)]) /\
  (before = after -> tbl_activity (tables run) = tbl_activity d) /\
  (ref = EmptyString -> tbl_activity (tables run) = tbl_activity d) /\
  (outcome run <> None -> tbl_activity (tables run) = tbl_activity d).
Proof.
  intros Hseq Hnd Hin Hid Hcanon run before after ref.
  assert (read_row d (Channel_ID channel) = Some r) as Hr
    by (rewrite <- Hid; by apply read_row_unique).
  assert (ref <> EmptyString -> after = Some ref) as Hafter.
  { intros Href. destruct Hcanon as [Hv|He]; [| by destruct Href].
    subst after ref. unfold NullString_Value. by rewrite Hv. }
  split.
  { intros Hok r' Hr' Hid'.
    destruct (UpdateChannel_accepted_run o channel d Hseq Hok) as (Hc & _).
    fold run in Hc. rewrite Hc in Hr'.
    apply list_elem_of_fmap in Hr' as [r0 [-> Hr0]].
    rewrite updated_row_id in Hid'. by apply updated_row_hit. }
  subst run. by_calls. fold ref. rewrite !Hseq, Hr.
  split; [| split; [| split]].
  - intros Hok Hdiff Href Hfa. revert Hok.
    rewrite decide_True by assumption.
    unfold outcome, tables.
    destruct (fault o SelectChannel); [discriminate |].
    destruct (fault o SelectPackage); [discriminate |].
    destruct (package_row d ref) as [pkg|]; [| discriminate].
    destruct (decide (Package_ApplicationID pkg <> row_application_id r));
      [discriminate |].
    destruct (decide (Package_Arch pkg <> row_arch r)); [discriminate |].
    destruct (inBlacklist _ _); [discriminate |].
    destruct (fault o UpdateChannelRow); [discriminate |].
    destruct (decide (length _ = 0)); [discriminate |].
    rewrite decide_True.
    + rewrite Hfa. intros _. exists pkg. by split.
    + intros Hsame. apply Hdiff. rewrite (Hafter Href). subst before.
      destruct (row_package_id r) as [s|]; simpl in Hsame;
        [by rewrite Hsame | by destruct Href].
  - intros Hsame. unfold tables.
    destruct (decide (ref <> EmptyString)) as [Href|Href].
    + assert (NullString_String (NullString_Scan (row_package_id r)) = ref)
        as Hstr.
      { subst before. rewrite Hsame, (Hafter Href). reflexivity. }
      destruct (decide (_ <> ref)) as [Hn|_]; [by destruct Hn |].
      repeat case_match; reflexivity.
    + repeat case_match; reflexivity.
  - intros Href. rewrite Href. unfold tables.
    destruct (decide (EmptyString <> EmptyString)) as [Hn|_]; [by destruct Hn |].
    repeat case_match; reflexivity.
  - unfold outcome, tables. intros Hfail.
    repeat case_match; simpl in *; try reflexivity; by destruct Hfail.
Qed.

(** ** Where accepted channels point *)

Lemma AddChannel_accepted_checks o channel d :
  sequential o ->
  snd (outcome (AddChannel' o channel d)) = None ->
  NullString_String (Channel_PackageID channel) <> EmptyString ->
  exists pkg,
    package_row d (NullString_String (Channel_PackageID channel)) = Some pkg /\
    Package_ApplicationID pkg = Channel_ApplicationID channel /\
    Package_Arch pkg = Channel_Arch channel /\
    Channel_ID channel ∉ Package_ChannelsBlacklist pkg.
Proof.
  intros Hseq Hok Href. revert Hok. by_calls. rewrite !Hseq. unfold outcome.
  destruct (negb _); [discriminate |].
  rewrite decide_True by assumption.
  destruct (fault o SelectPackage); [discriminate |].
  destruct (package_row d _) as [pkg|]; [| discriminate].
  destruct (decide (Package_ApplicationID pkg <> Channel_ApplicationID channel))
    as [|Happ]; [discriminate |].
  destruct (decide (Package_Arch pkg <> Channel_Arch channel)) as [|Harch];
    [discriminate |].
  destruct (inBlacklist _ _) eqn:Hbl; [discriminate |].
  intros _. exists pkg. apply inBlacklist_not_elem_of in Hbl.
  repeat split; try assumption; by apply dec_stable.
Qed.

Lemma package_row_same_packages d d' (pid : string) :
  tbl_package d' = tbl_package d -> package_row d' pid = package_row d pid.
Proof. intros Hp. unfold package_row, packagesQuery. by rewrite Hp. Qed.

(** C2, as amended. Served alone:
    - a channel that [AddChannel] accepts is stored under the identifier
      the store gives it, and a non-empty package reference stored with
      it names a package of the channel's application and architecture
      whose blacklist does not contain the ID given in the struct; the
      stored channel is well placed exactly when that blacklist does not
      contain the identifier the store gave;
    - with channel identifiers unique, a channel that [UpdateChannel]
      accepts is well placed: a non-empty stored reference names a
      package of the stored channel's application and architecture
      whose blacklist does not contain the channel;
    - runs of channel operations keep the invariant (unique identifiers,
      every channel well placed), each insert being given an identifier
      that no channel has and no blacklist mentions. *)
Theorem accepted_channels_placement o channel
  (steps : list (Oracle * ChannelOp)) d :
  (sequential o ->
   snd (outcome (AddChannel' o channel d)) = None ->
   let d' := tables (AddChannel' o channel d) in
   let row := mkChannelRow (gen_id o) (Channel_Name channel)
                (Channel_Color channel) (gen_ts o)
                (Channel_ApplicationID channel)
                (NullString_Value (Channel_PackageID channel))
                (Channel_Arch channel) in
   row ∈ tbl_channel d' /\
   forall pid,
     NullString_Value (Channel_PackageID channel) = Some pid ->
     pid <> EmptyString ->
     exists pkg,
       package_row d' pid = Some pkg /\
       Package_ApplicationID pkg = Channel_ApplicationID channel /\
       Package_Arch pkg = Channel_Arch channel /\
       (Channel_ID channel ∉ Package_ChannelsBlacklist pkg) /\
       (placement_ok d' row <-> gen_id o ∉ Package_ChannelsBlacklist pkg)) /\
  (sequential o ->
   NoDup (row_id <$> tbl_channel d) ->
   outcome (UpdateChannel' o channel d) = None ->
   forall r', r' ∈ tbl_channel (tables (UpdateChannel' o channel d)) ->
     row_id r' = Channel_ID channel ->
     placement_ok (tables (UpdateChannel' o channel d)) r') /\
  (channels_inv d ->
   served_alone IsValid activityChannelPackageUpdated activityInfo
     validatePaginationParams steps d ->
   channels_inv
     (run_ops IsValid activityChannelPackageUpdated activityInfo
        validatePaginationParams steps d)).
Proof.
  split; [| split].
  - intros Hseq Hok d' row.
    destruct (AddChannel_accepted_run o channel d Hseq Hok) as [Ht _].
    assert (tbl_channel d' = tbl_channel d ++ [row]) as Hc
      by (subst d'; by rewrite Ht).
    assert (tbl_package d' = tbl_package d) as Hp
      by (subst d'; by rewrite Ht).
    clearbody d'. split; [rewrite Hc; apply elem_of_app; right; by left |].
    intros pid Hpid Hne.
    pose proof (NullString_Value_Some _ _ Hpid) as Hstr.
    destruct (AddChannel_accepted_checks o channel d Hseq Hok)
      as (pkg & Hpkg & Happ & Harch & Hbl); [by rewrite Hstr |].
    rewrite Hstr in Hpkg.
    exists pkg. rewrite (package_row_same_packages d d') by assumption.
    repeat split; try assumption.
    + intros Hok' Hin. destruct (Hok' pid Hpid Hne) as (pkg' & Hpkg' & _ & _ & Hn).
      rewrite (package_row_same_packages d d') in Hpkg' by assumption.
      assert (pkg' = pkg) as -> by congruence. by apply Hn.
    + intros Hn pid' Hpid' _. cbn [row row_package_id] in Hpid'.
      assert (pid' = pid) as -> by congruence.
      exists pkg. rewrite (package_row_same_packages d d') by assumption.
      by repeat split.
  - intros Hseq Hnd Hok r' Hr' Hid'.
    destruct (UpdateChannel_accepted_run o channel d Hseq Hok)
      as (Hc & Hp & r & Hr & _ & _ & Hval).
    set (d' := tables (UpdateChannel' o channel d)) in *. clearbody d'.
    rewrite Hc in Hr'. apply list_elem_of_fmap in Hr' as [r0 [-> Hr0]].
    rewrite updated_row_id in Hid'.
    apply read_row_Some in Hr as [Hin Hid].
    assert (r0 = r) as ->
      by (apply (unique_key_eq row_id (tbl_channel d)); congruence).
    intros pid Hpid Hne. rewrite updated_row_hit in Hpid by assumption.
    apply NullString_Value_Some in Hpid. rewrite <- Hpid in Hne.
    destruct (Hval Hne) as (_ & pkg & Hpkg & Happ & Harch & Hbl).
    apply inBlacklist_not_elem_of in Hbl.
    exists pkg. rewrite <- Hpid.
    rewrite (package_row_same_packages d d') by assumption.
    pose proof (updated_row_fixed_columns channel r) as Hfix.
    injection Hfix as Hi Ha Hx _. rewrite Hi, Ha, Hx, Hid.
    by repeat split.
  - apply channels_inv_preserved.
Qed.

End MoreProperties.

(** * The further properties on the small catalog *)

Lemma ex_mute_sequential : sequential ex_mute.
Proof. intros c d. reflexivity. Qed.

Lemma ex_db_unique_ids : NoDup (row_id <$> tbl_channel ex_db).
Proof. apply (bool_decide_unpack _). by vm_compute. Qed.

Lemma ex_quiet_new_id : gen_id ex_quiet ∉ row_id <$> tbl_channel ex_db.
Proof. apply (bool_decide_unpack _). by vm_compute. Qed.

Lemma failed_operation_changes_nothing_witness :
  sequential ex_quiet /\
  outcome (ex_UpdateChannel ex_quiet
             (ex_channel "c2" "beta" (mkNullString "p1" true)) ex_db)
  = Some ErrBlacklistedChannel /\
  tables (ex_UpdateChannel ex_quiet
            (ex_channel "c2" "beta" (mkNullString "p1" true)) ex_db)
  = ex_db.
Proof.
  split; [exact ex_quiet_sequential |]. split; [reflexivity |].
  apply (failed_operation_changes_nothing ex_IsValid
           ex_activityChannelPackageUpdated ex_activityInfo ex_quiet
           (ex_channel "c2" "beta" (mkNullString "p1" true)) "c7" ex_db
           ex_quiet_sequential).
  by vm_compute.
Defined.

Lemma store_error_is_returned_witness :
  fault ex_down UpdateChannelRow = Some (ErrStore "down") /\
  outcome (ex_UpdateChannel ex_down
             (ex_channel "c1" "stable" (mkNullString "p2" true)) ex_db)
  = Some (ErrStore "down").
Proof.
  split; [reflexivity |].
  apply (store_error_is_returned ex_IsValid ex_activityChannelPackageUpdated
           ex_activityInfo ex_validatePaginationParams ex_down
           (ex_channel "c1" "stable" (mkNullString "p2" true))
           "c1" "app" [] 0%N 0%N ex_db UpdateChannelRow (ErrStore "down"));
    [reflexivity | discriminate | apply (bool_decide_unpack _); by vm_compute].
Defined.

Lemma activity_failure_is_ignored_witness :
  let run := ex_UpdateChannel ex_mute
               (ex_channel "c1" "stable" (mkNullString "p2" true)) ex_db in
  (InsertActivity ∈ calls run) /\
  outcome run = None /\
  row_package_id <$> tbl_channel (tables run) = [Some "p2"; None] /\
  tbl_activity (tables run) = [].
Proof.
  intros run.
  assert (InsertActivity ∈ calls run) as Hcall
    by (apply (bool_decide_unpack _); by vm_compute).
  split; [exact Hcall |].
  destruct (activity_failure_is_ignored ex_activityChannelPackageUpdated
              ex_activityInfo ex_mute
              (ex_channel "c1" "stable" (mkNullString "p2" true)) ex_db Hcall)
    as [Hout Hrest].
  destruct (Hrest (ErrStore "down") ex_mute_sequential eq_refl) as [Hc Ha].
  split; [exact Hout |]. split; [| exact Ha].
  subst run. unfold ex_UpdateChannel. rewrite Hc. reflexivity.
Defined.

Lemma AddChannel_accepts_iff_witness :
  sequential ex_quiet /\
  snd (outcome (AddChannel ex_IsValid ex_quiet
                  (ex_new_channel "alpha" (mkNullString "p2" true) 1%N) ex_db))
  = None /\
  snd (outcome (AddChannel ex_IsValid ex_quiet
                  (ex_new_channel "alpha" (mkNullString "p4" true) 1%N) ex_db))
  <> None.
Proof.
  split; [exact ex_quiet_sequential |]. split.
  - apply (AddChannel_accepts_iff ex_IsValid ex_quiet
             (ex_new_channel "alpha" (mkNullString "p2" true) 1%N) ex_db
             ex_quiet_sequential (fun _ => eq_refl)).
    split; [reflexivity |]. right. exists ex_p2.
    repeat split. apply (bool_decide_unpack _). by vm_compute.
  - intros Hok.
    apply (AddChannel_accepts_iff ex_IsValid ex_quiet
             (ex_new_channel "alpha" (mkNullString "p4" true) 1%N) ex_db
             ex_quiet_sequential (fun _ => eq_refl)) in Hok.
    destruct Hok as [_ [Hempty|[pkg [Hpkg [_ [Harch _]]]]]];
      [discriminate Hempty |].
    vm_compute in Hpkg. injection Hpkg as <-. discriminate Harch.
Defined.

Lemma AddChannel_effect_witness :
  sequential ex_quiet /\
  tables (AddChannel ex_IsValid ex_quiet
            (ex_new_channel "alpha" (mkNullString "p2" true) 1%N) ex_db)
  = mkDB [ex_r1; ex_r2;
          mkChannelRow "c9" "alpha" "grey" 100%Z "app" (Some "p2") 1%N]
      (tbl_package ex_db) [] /\
  fst (outcome (AddChannel ex_IsValid ex_quiet
                  (ex_new_channel "alpha" (mkNullString "p2" true) 1%N) ex_db))
  = Some ex_added.
Proof.
  split; [exact ex_quiet_sequential |].
  apply (AddChannel_effect ex_IsValid ex_quiet
           (ex_new_channel "alpha" (mkNullString "p2" true) 1%N) ex_db
           ex_quiet_sequential).
  reflexivity.
Defined.

Lemma AddChannel_without_package_witness :
  NullString_String (mkNullString "" false) = "" /\
  (SelectPackage
   ∉ calls (AddChannel ex_IsValid ex_quiet
              (ex_new_channel "alpha" (mkNullString "" false) 1%N) ex_db)) /\
  snd (outcome (AddChannel ex_IsValid ex_quiet
                  (ex_new_channel "alpha" (mkNullString "" false) 1%N) ex_db))
  = None.
Proof.
  split; [reflexivity |].
  destruct (AddChannel_without_package ex_IsValid ex_quiet
              (ex_new_channel "alpha" (mkNullString "" false) 1%N) ex_db
              eq_refl) as [Hno Hiff].
  split; [exact Hno |]. apply Hiff. by split.
Defined.

Lemma AddChannel_then_GetChannel_witness :
  outcome (AddChannel ex_IsValid ex_quiet
             (ex_new_channel "alpha" (mkNullString "p2" true) 1%N) ex_db)
  = (Some ex_added, None) /\
  exists c'',
    outcome (GetChannel ex_quiet "c9"
               (tables (AddChannel ex_IsValid ex_quiet
                          (ex_new_channel "alpha" (mkNullString "p2" true) 1%N)
                          ex_db)))
    = Ok c'' /\
    Channel_Name c'' = "alpha" /\
    Channel_Package c'' = Some ex_p2.
Proof.
  split; [reflexivity |].
  destruct (AddChannel_then_GetChannel ex_IsValid ex_quiet ex_quiet
              (ex_new_channel "alpha" (mkNullString "p2" true) 1%N) ex_db
              ex_added) as (c'' & Hget & Hcols & Hpkg);
    [exact ex_quiet_sequential | exact ex_quiet_sequential | reflexivity |
     exact ex_quiet_new_id | reflexivity |].
  exists c''. split; [exact Hget |]. split; [| exact Hpkg].
  by injection Hcols.
Defined.

Lemma UpdateChannel_accepts_iff_witness :
  NoDup (row_id <$> tbl_channel ex_db) /\
  outcome (ex_UpdateChannel ex_quiet
             (ex_channel "c2" "beta" (mkNullString "p2" true)) ex_db)
  = None.
Proof.
  split; [exact ex_db_unique_ids |].
  apply (UpdateChannel_accepts_iff ex_activityChannelPackageUpdated
           ex_activityInfo ex_quiet
           (ex_channel "c2" "beta" (mkNullString "p2" true)) ex_db
           ex_quiet_sequential (fun _ => eq_refl) ex_db_unique_ids).
  exists ex_r2. split; [right; by left |]. split; [reflexivity |].
  right. exists ex_p2. repeat split.
  apply (bool_decide_unpack _). by vm_compute.
Defined.

Lemma UpdateChannel_then_GetChannel_witness :
  outcome (ex_UpdateChannel ex_quiet
             (ex_channel "c1" "steady" (mkNullString "p2" true)) ex_db)
  = None /\
  exists c'',
    outcome (GetChannel ex_quiet "c1"
               (tables (ex_UpdateChannel ex_quiet
                          (ex_channel "c1" "steady" (mkNullString "p2" true))
                          ex_db)))
    = Ok c'' /\
    (Channel_Name c'', Channel_Color c'', Channel_PackageID c'')
    = ("steady", "grey", mkNullString "p2" true) /\
    (Channel_ID c'', Channel_CreatedTs c'', Channel_ApplicationID c'',
     Channel_Arch c'')
    = ("c1", 1%Z, "app", 1%N) /\
    Channel_Package c'' = Some ex_p2.
Proof.
  split; [reflexivity |].
  apply (UpdateChannel_then_GetChannel ex_activityChannelPackageUpdated
           ex_activityInfo ex_quiet ex_quiet
           (ex_channel "c1" "steady" (mkNullString "p2" true)) ex_db
           (channel_doc ex_db ex_r1));
    [exact ex_quiet_sequential | exact ex_quiet_sequential | reflexivity |
     exact ex_db_unique_ids | reflexivity | reflexivity].
Defined.

Lemma other_channels_unaffected_witness :
  sequential ex_quiet /\
  outcome (GetChannel ex_quiet "c2"
             (tables (ex_UpdateChannel ex_quiet
                        (ex_channel "c1" "steady" (mkNullString "p2" true))
                        ex_db)))
  = outcome (GetChannel ex_quiet "c2" ex_db) /\
  outcome (GetChannel ex_quiet "c2" (tables (DeleteChannel ex_quiet "c1" ex_db)))
  = outcome (GetChannel ex_quiet "c2" ex_db).
Proof.
  split; [exact ex_quiet_sequential |].
  destruct (other_channels_unaffected ex_IsValid
              ex_activityChannelPackageUpdated ex_activityInfo
              ex_quiet ex_quiet
              (ex_channel "c1" "steady" (mkNullString "p2" true)) "c1" "c2"
              ex_db ex_quiet_sequential ex_quiet_sequential)
    as (_ & Hupd & Hdel).
  split; [apply Hupd | apply Hdel]; discriminate.
Defined.

Lemma UpdateChannel_repeated_witness :
  let d1 := tables (ex_UpdateChannel ex_quiet
                      (ex_channel "c1" "steady" (mkNullString "p2" true))
                      ex_db) in
  length (tbl_activity d1) = 1 /\
  outcome (ex_UpdateChannel ex_quiet
             (ex_channel "c1" "steady" (mkNullString "p2" true)) d1) = None /\
  tbl_activity
    (tables (ex_UpdateChannel ex_quiet
               (ex_channel "c1" "steady" (mkNullString "p2" true)) d1))
  = tbl_activity d1.
Proof.
  intros d1. split; [reflexivity |].
  destruct (UpdateChannel_repeated ex_activityChannelPackageUpdated
              ex_activityInfo ex_quiet
              (ex_channel "c1" "steady" (mkNullString "p2" true)) ex_db)
    as (Hout & _ & Hact);
    [exact ex_quiet_sequential | exact ex_db_unique_ids | by left |
     reflexivity |].
  by split.
Defined.

Lemma DeleteChannel_effect_witness :
  fault ex_quiet DeleteChannelRow = None /\
  outcome (DeleteChannel ex_quiet "c1" ex_db) = None /\
  tbl_package (tables (DeleteChannel ex_quiet "c1" ex_db)) = tbl_package ex_db /\
  (ex_r2 ∈ tbl_channel (tables (DeleteChannel ex_quiet "c1" ex_db))).
Proof.
  split; [reflexivity |].
  destruct (DeleteChannel_effect ex_quiet "c1" ex_db ex_quiet_sequential eq_refl)
    as (Hiff & Hrows & _ & Hp & _).
  split; [| split; [exact Hp |]].
  - apply Hiff. exists ex_r1. split; [by left | reflexivity].
  - apply Hrows. split; [right; by left | discriminate].
Defined.

Lemma deleted_channel_is_gone_witness :
  let d' := tables (DeleteChannel ex_quiet "c1" ex_db) in
  outcome (GetChannel ex_quiet "c1" d') = Err ErrNotFound /\
  outcome (ex_UpdateChannel ex_quiet
             (ex_channel "c1" "steady" (mkNullString "p2" true)) d')
  = Some ErrNotFound /\
  outcome (DeleteChannel ex_quiet "c1" d') = Some ErrNoRowsAffected.
Proof.
  apply (deleted_channel_is_gone ex_activityChannelPackageUpdated
           ex_activityInfo ex_quiet ex_quiet
           (ex_channel "c1" "steady" (mkNullString "p2" true)) ex_db);
    [exact ex_quiet_sequential | exact ex_quiet_sequential | reflexivity |
     reflexivity].
Defined.

Lemma package_lookup_error_is_returned_witness :
  outcome (GetPackage ex_quiet "p9" ex_db) = Err ErrNotFound /\
  AddChannel ex_IsValid ex_quiet
    (ex_new_channel "alpha" (mkNullString "p9" true) 1%N) ex_db
  = ((None, Some ErrNotFound), ex_db, [SelectPackage]) /\
  ex_UpdateChannel ex_quiet (ex_channel "c1" "stable" (mkNullString "p9" true))
    ex_db
  = (Some ErrNotFound, ex_db, [SelectChannel; SelectPackage]).
Proof.
  split; [reflexivity |]. split.
  - apply (package_lookup_error_is_returned ex_IsValid
             ex_activityChannelPackageUpdated ex_activityInfo ex_quiet
             (ex_new_channel "alpha" (mkNullString "p9" true) 1%N) ex_db
             ErrNotFound); [discriminate | reflexivity | reflexivity].
  - apply (package_lookup_error_is_returned ex_IsValid
             ex_activityChannelPackageUpdated ex_activityInfo ex_quiet
             (ex_channel "c1" "stable" (mkNullString "p9" true)) ex_db
             ErrNotFound) with (stored := channel_doc ex_db ex_r1);
      [discriminate | reflexivity | reflexivity].
Defined.

Lemma AddChannel_then_DeleteChannel_witness :
  outcome (AddChannel ex_IsValid ex_quiet
             (ex_new_channel "alpha" (mkNullString "p2" true) 1%N) ex_db)
  = (Some ex_added, None) /\
  DeleteChannel ex_quiet "c9"
    (tables (AddChannel ex_IsValid ex_quiet
               (ex_new_channel "alpha" (mkNullString "p2" true) 1%N) ex_db))
  = (None, ex_db, [DeleteChannelRow]).
Proof.
  split; [reflexivity |].
  apply (AddChannel_then_DeleteChannel ex_IsValid ex_quiet ex_quiet
           (ex_new_channel "alpha" (mkNullString "p2" true) 1%N) ex_db
           ex_added);
    [exact ex_quiet_sequential | exact ex_quiet_sequential | reflexivity |
     exact ex_quiet_new_id | reflexivity].
Defined.

Lemma channel_operations_frame_witness :
  sequential ex_quiet /\
  tbl_package
    (run_op ex_IsValid ex_activityChannelPackageUpdated ex_activityInfo
       ex_validatePaginationParams ex_quiet (OpDeleteChannel "c1") ex_db)
  = tbl_package ex_db.
Proof.
  split; [exact ex_quiet_sequential |].
  apply (channel_operations_frame ex_IsValid ex_activityChannelPackageUpdated
           ex_activityInfo ex_validatePaginationParams ex_quiet
           (OpDeleteChannel "c1") ex_db ex_quiet_sequential).
Defined.

Lemma UpdateChannel_activity_witness :
  let run := ex_UpdateChannel ex_quiet
               (ex_channel "c1" "stable" (mkNullString "p2" true)) ex_db in
  sequential ex_quiet /\
  row_package_id ex_r1 = Some "p1" /\
  row_package_id <$> tbl_channel (tables run) = [Some "p2"; None] /\
  tbl_activity (tables run)
  = [mkActivity ex_activityChannelPackageUpdated ex_activityInfo
       "2.0" "app" "c1" 100%Z].
Proof.
  intros run. split; [exact ex_quiet_sequential |].
  split; [reflexivity |]. split; [reflexivity |].
  destruct (UpdateChannel_activity ex_activityChannelPackageUpdated
              ex_activityInfo ex_quiet
              (ex_channel "c1" "stable" (mkNullString "p2" true)) ex_db ex_r1)
    as (_ & Hone & _);
    [exact ex_quiet_sequential | exact ex_db_unique_ids | by left |
     reflexivity | by left |].
  destruct Hone as [pkg [Hpkg Hact]];
    [reflexivity | discriminate | discriminate | reflexivity |].
  vm_compute in Hpkg. injection Hpkg as <-. exact Hact.
Defined.

(** Concrete tables satisfy the invariant: each row is checked against
    the package it names. *)
Ltac concrete_inv :=
  split;
  [apply (bool_decide_unpack _); by vm_compute |
   repeat constructor;
   let pid := fresh "pid" in
   intros pid;
   first
     [by intros [=]
     |intros [= <-] _; eexists;
      (split; [reflexivity |]); (split; [reflexivity |]);
      (split; [reflexivity |]);
      apply (bool_decide_unpack _); by vm_compute]].

Lemma ex_db_reserved_inv : channels_inv ex_db_reserved.
Proof. concrete_inv. Qed.

Lemma ex_db_blacklisting_inv :
  channels_inv (interfere ex_racy_blacklist UpdateChannelRow ex_db).
Proof. concrete_inv. Qed.

(** Channel c2 is given package p2 while a concurrent writer puts c2 on
    p2's blacklist between the validation and the UPDATE: the update is
    accepted and c2 ends up pointing to a package that blacklists it.
    And on a store that hands out an identifier a blacklist already
    holds, an accepted [AddChannel] stores a channel its package
    blacklists. *)
Lemma channels_inv_counterexample :
  let run1 := ex_UpdateChannel ex_racy_blacklist
                (ex_channel "c2" "beta" (mkNullString "p2" true)) ex_db in
  let run2 := AddChannel ex_IsValid ex_quiet
                (ex_new_channel "alpha" (mkNullString "p5" true) 1%N)
                ex_db_reserved in
  (channels_inv ex_db /\
   channels_inv (interfere ex_racy_blacklist UpdateChannelRow ex_db) /\
   outcome run1 = None /\
   tbl_channel (tables run1)
   = [ex_r1; mkChannelRow "c2" "beta" "grey" 2%Z "app" (Some "p2") 1%N] /\
   package_row (tables run1) "p2" = Some ex_p2_blacklisting /\
   "c2" ∈ Package_ChannelsBlacklist ex_p2_blacklisting /\
   ~ channels_inv (tables run1)) /\
  (channels_inv ex_db_reserved /\
   sequential ex_quiet /\
   snd (outcome run2) = None /\
   tbl_channel (tables run2)
   = [ex_r1; ex_r2;
      mkChannelRow "c9" "alpha" "grey" 100%Z "app" (Some "p5") 1%N] /\
   package_row (tables run2) "p5" = Some ex_p5 /\
   "c9" ∈ Package_ChannelsBlacklist ex_p5 /\
   ~ channels_inv (tables run2)).
Proof.
  intros run1 run2. split.
  - split; [exact ex_db_inv |]. split; [exact ex_db_blacklisting_inv |].
    split; [reflexivity |].
    assert (tbl_channel (tables run1)
            = [ex_r1; mkChannelRow "c2" "beta" "grey" 2%Z "app" (Some "p2") 1%N])
      as Hrows by reflexivity.
    split; [exact Hrows |]. split; [reflexivity |].
    split; [apply (bool_decide_unpack _); by vm_compute |].
    intros [_ Hall]. rewrite Hrows in Hall.
    apply Forall_cons in Hall as [_ Hall]. apply Forall_cons in Hall as [Hc2 _].
    destruct (Hc2 "p2" eq_refl) as (pkg & Hpkg & _ & _ & Hn); [discriminate |].
    vm_compute in Hpkg. injection Hpkg as <-. apply Hn. by left.
  - split; [exact ex_db_reserved_inv |]. split; [exact ex_quiet_sequential |].
    split; [reflexivity |].
    assert (tbl_channel (tables run2)
            = [ex_r1; ex_r2;
               mkChannelRow "c9" "alpha" "grey" 100%Z "app" (Some "p5") 1%N])
      as Hrows by reflexivity.
    split; [exact Hrows |]. split; [reflexivity |].
    split; [apply (bool_decide_unpack _); by vm_compute |].
    intros [_ Hall]. rewrite Hrows in Hall.
    apply Forall_cons in Hall as [_ Hall]. apply Forall_cons in Hall as [_ Hall].
    apply Forall_cons in Hall as [Hc9 _].
    destruct (Hc9 "p5" eq_refl) as (pkg & Hpkg & _ & _ & Hn); [discriminate |].
    vm_compute in Hpkg. injection Hpkg as <-. apply Hn. by left.
Qed.

Lemma accepted_channels_placement_witness :
  sequential ex_quiet /\ channels_inv ex_db /\
  (mkChannelRow "c9" "alpha" "grey" 100%Z "app" (Some "p2") 1%N
   ∈ tbl_channel
       (tables (AddChannel ex_IsValid ex_quiet
                  (ex_new_channel "alpha" (mkNullString "p2" true) 1%N)
                  ex_db))) /\
  placement_ok
    (tables (ex_UpdateChannel ex_quiet
               (ex_channel "c2" "beta" (mkNullString "p2" true)) ex_db))
    (mkChannelRow "c2" "beta" "grey" 2%Z "app" (Some "p2") 1%N) /\
  channels_inv
    (run_ops ex_IsValid ex_activityChannelPackageUpdated ex_activityInfo
       ex_validatePaginationParams ex_steps ex_db).
Proof.
  split; [exact ex_quiet_sequential |]. split; [exact ex_db_inv |].
  split; [| split].
  - destruct (accepted_channels_placement ex_IsValid
                ex_activityChannelPackageUpdated ex_activityInfo
                ex_validatePaginationParams ex_quiet
                (ex_new_channel "alpha" (mkNullString "p2" true) 1%N)
                ex_steps ex_db) as (Hadd & _ & _).
    destruct Hadd as [Hin _]; [exact ex_quiet_sequential | reflexivity |].
    exact Hin.
  - destruct (accepted_channels_placement ex_IsValid
                ex_activityChannelPackageUpdated ex_activityInfo
                ex_validatePaginationParams ex_quiet
                (ex_channel "c2" "beta" (mkNullString "p2" true))
                ex_steps ex_db) as (_ & Hupd & _).
    apply Hupd;
      [exact ex_quiet_sequential | exact ex_db_unique_ids | reflexivity |
       right; by left | reflexivity].
  - apply (accepted_channels_placement ex_IsValid
             ex_activityChannelPackageUpdated ex_activityInfo
             ex_validatePaginationParams ex_quiet
             (ex_channel "c2" "beta" (mkNullString "p2" true))
             ex_steps ex_db).
    + exact ex_db_inv.
    + split; [split; [exact ex_quiet_sequential | exact ex_quiet_fresh] |].
      split; [split; [exact ex_quiet_sequential | exact I] |].
      split; [split; [exact ex_quiet_sequential | exact I] |].
      exact I.
Defined.
